(** * ChatUIUXShowcase: a model of the chat showcase component

    A shallow embedding of [src/components/ChatUIUXShowcase.tsx].

    The component keeps five pieces of React state ([theme], [messages],
    [typing], [activeThread], [showSettings]), one memoised value
    ([timeNow]) and, inside [MessageInput], the composer's [value] and
    [rows].  [handleSend] is an async function: it runs up to its first
    [await], and each later segment runs when its timer fires, so that
    user events (and other sends) interleave with it.  The model makes
    that explicit: a pool of suspended [handleSend] activations and an
    event for resuming one of them.

    What the code reads from the browser ([crypto.randomUUID()], the
    clock, [String.prototype.toLowerCase]) enters the model as inputs. *)

From Stdlib Require Import String Ascii NArith Bool List Lia PeanoNat.
Import ListNotations.

(* ================================================================= *)
(** ** JavaScript strings *)

(** A JavaScript string is a sequence of UTF-16 code units. *)
Module JS.

Definition jsstring := list N.

(** An ASCII literal, one code unit per character. *)
Definition lit (s : string) : jsstring :=
  map N_of_ascii (list_ascii_of_string s).
Arguments lit s%_string.

(** [===] on strings. *)
Fixpoint eqb (a b : jsstring) : bool :=
  match a, b with
  | [], [] => true
  | x :: a', y :: b' => N.eqb x y && eqb a' b'
  | _, _ => false
  end.

(** The code units that [trim] strips: ECMAScript WhiteSpace and
    LineTerminator (TAB, LF, VT, FF, CR, SP, NBSP, the Zs category,
    LS, PS and ZWNBSP). *)
Definition isWhiteSpace (c : N) : bool :=
  ((9 <=? c) && (c <=? 13)
   || (c =? 32) || (c =? 160) || (c =? 5760)
   || (8192 <=? c) && (c <=? 8202)
   || (c =? 8232) || (c =? 8233) || (c =? 8239) || (c =? 8287)
   || (c =? 12288) || (c =? 65279))%N.

Fixpoint trimStart (s : jsstring) : jsstring :=
  match s with
  | [] => []
  | c :: r => if isWhiteSpace c then trimStart r else s
  end.

Definition trimEnd (s : jsstring) : jsstring := rev (trimStart (rev s)).

(** [s.trim()] *)
Definition trim (s : jsstring) : jsstring := trimEnd (trimStart s).

(** [s.startsWith(p)] *)
Fixpoint startsWith (s p : jsstring) : bool :=
  match p, s with
  | [], _ => true
  | y :: p', x :: s' => N.eqb x y && startsWith s' p'
  | _ :: _, [] => false
  end.

(** [s.slice(n)] for [n >= 0]. *)
Definition slice (n : nat) (s : jsstring) : jsstring := skipn n s.

(** [s.split(sep)] for a separator of one code unit. *)
Fixpoint split (sep : N) (s : jsstring) : list jsstring :=
  match s with
  | [] => [[]]
  | c :: r =>
      if N.eqb c sep then [] :: split sep r
      else match split sep r with
           | h :: t => (c :: h) :: t
           | [] => [[c]]
           end
  end.

(** JavaScript truthiness of a string: [!s] is [true] exactly for [""]. *)
Definition falsy (s : jsstring) : bool :=
  match s with [] => true | _ :: _ => false end.

(** [toLowerCase] on the ASCII range, where it maps [A-Z] to [a-z] and
    leaves every other code unit below 128 alone.  Used to evaluate the
    model on concrete ASCII inputs. *)
Definition lowerUnit (c : N) : N :=
  if ((65 <=? c) && (c <=? 90))%N then (c + 32)%N else c.

Definition toLowerCaseASCII (s : jsstring) : jsstring := map lowerUnit s.

End JS.

Import JS.

(* ================================================================= *)
(** ** Data model *)

Inductive Sender := user | bot.

Inductive MsgStatus := sending | sent | delivered | read.

Inductive AttachmentType := image | file.

Record Attachment := mkAttachment {
  att_type : AttachmentType;
  att_name : jsstring
}.

Module Message.
Record t := mk {
  id : jsstring;
  sender : Sender;
  text : jsstring;
  time : jsstring;
  status : option MsgStatus;           (* [status?: MsgStatus] *)
  attachments : option (list Attachment)
}.

(** [{ ...m, status: st }] *)
Definition with_status (st : MsgStatus) (m : t) : t :=
  mk (id m) (sender m) (text m) (time m) (Some st) (attachments m).
End Message.

Module Thread.
Record t := mk {
  id : jsstring;
  title : jsstring;
  lastMessage : jsstring;
  unread : option N;
  pinned : option bool
}.
End Thread.

Inductive Theme := light | dark.

(** The string a theme value is, as interpolated by a template. *)
Definition theme_str (t : Theme) : jsstring :=
  match t with light => lit "light" | dark => lit "dark" end.

(** *** Demo data *)

Definition demoThreads : list Thread.t :=
  [ Thread.mk (lit "t1") (lit "Portfolio Review " ++ [10024%N])
      (lit "Let" ++ [8217%N] ++ lit "s make it pop.") (Some 2%N) (Some true);
    Thread.mk (lit "t2") (lit "UX Interview Prep")
      (lit "Walk me through a flow.") None None;
    Thread.mk (lit "t3") (lit "Client " ++ [8211%N] ++ lit " AI Keyboard")
      (lit "Ship date confirmed.") None None;
    Thread.mk (lit "t4") (lit "Hackathon Team")
      (lit "Standup in 10 mins") (Some 1%N) None ].

Definition introMessages : list Message.t :=
  [ Message.mk (lit "m1") bot
      (lit "Hey! I" ++ [8217%N]
         ++ lit "m the demo assistant. Ask me anything about this UI.")
      (lit "09:58") None None;
    Message.mk (lit "m2") user
      (lit "Show me your best micro" ++ [8209%N] ++ lit "interactions.")
      (lit "10:01") (Some read) None;
    Message.mk (lit "m3") bot
      (lit "You" ++ [8217%N]
         ++ lit "ll see motion, affordances, and accessible controls throughout.")
      (lit "10:02") None None ].

(* ================================================================= *)
(** ** Component state *)

(** The hooks of [ChatUIUXShowcase].  [timeNow] is the [useMemo] value
    and [timeNowDep] the [messages.length] it was last computed for. *)
Record State := mkState {
  theme : Theme;
  messages : list Message.t;
  typing : bool;
  activeThread : jsstring;
  showSettings : bool;
  timeNow : jsstring;
  timeNowDep : nat
}.

Definition setTheme (f : Theme -> Theme) (s : State) : State :=
  mkState (f (theme s)) (messages s) (typing s) (activeThread s)
    (showSettings s) (timeNow s) (timeNowDep s).

Definition setMessages (f : list Message.t -> list Message.t) (s : State)
  : State :=
  mkState (theme s) (f (messages s)) (typing s) (activeThread s)
    (showSettings s) (timeNow s) (timeNowDep s).

Definition setTyping (b : bool) (s : State) : State :=
  mkState (theme s) (messages s) b (activeThread s)
    (showSettings s) (timeNow s) (timeNowDep s).

Definition setActiveThread (t : jsstring) (s : State) : State :=
  mkState (theme s) (messages s) (typing s) t
    (showSettings s) (timeNow s) (timeNowDep s).

Definition setShowSettings (f : bool -> bool) (s : State) : State :=
  mkState (theme s) (messages s) (typing s) (activeThread s)
    (f (showSettings s)) (timeNow s) (timeNowDep s).

(** The hooks of [MessageInput]. *)
Record Composer := mkComposer {
  value : jsstring;
  rows : nat
}.

(** What one event reads from the browser: the result of
    [crypto.randomUUID()], the clock as formatted by
    [toLocaleTimeString] inside the handler, and the clock again in the
    render that follows (for the [timeNow] memo). *)
Record Env := mkEnv {
  uuid : jsstring;
  now : jsstring;
  renderNow : jsstring
}.

(** A [handleSend] activation suspended at one of its four [await]s,
    with the local variables that are live there.  [th] is the [theme]
    the closure captured when [handleSend] was called. *)
Inductive Suspended :=
| AtWait400 (id text : jsstring) (th : Theme)
| AtWait300 (id text : jsstring) (th : Theme)
| AtWait700 (id text : jsstring) (th : Theme)
| AtWait600 (id reply : jsstring).

Definition susp_id (k : Suspended) : jsstring :=
  match k with
  | AtWait400 i _ _ | AtWait300 i _ _ | AtWait700 i _ _ | AtWait600 i _ => i
  end.

(** The whole system: the root component, the composer and the pool of
    suspended [handleSend] activations. *)
Record Sys := mkSys {
  ui : State;
  composer : Composer;
  pending : list Suspended
}.

Record KeyEvent := mkKey {
  key : jsstring;
  ctrlKey : bool;
  metaKey : bool;
  shiftKey : bool
}.

(** User input and timer events. *)
Inductive Event :=
| Input (v : jsstring)                 (* textarea [onChange] *)
| KeyDown (inTextarea : bool) (e : KeyEvent)
| ClickSend
| ClickToggleTheme
| ClickSettings
| ClickCloseSettings
| ClickThread (n : nat)                (* the n-th [ThreadItem] *)
| ClickClear
| ClickAttach
| TimerFires (n : nat).                (* the n-th suspended activation *)

(* ================================================================= *)
(** ** Operations *)

(** [(t) => (t === "light" ? "dark" : "light")] *)
Definition toggle (t : Theme) : Theme :=
  match t with light => dark | dark => light end.

(** [(m) => (m.id === id ? { ...m, status: st } : m)] *)
Definition marker (id : jsstring) (st : MsgStatus) (m : Message.t)
  : Message.t :=
  if JS.eqb (Message.id m) id then Message.with_status st m else m.

(** [prev.map((m) => (m.id === id ? { ...m, status: st } : m))] *)
Definition mark (id : jsstring) (st : MsgStatus) (prev : list Message.t)
  : list Message.t :=
  map (marker id st) prev.

(** [useMemo(..., [messages.length])] as evaluated by a render. *)
Definition rerender (clock : jsstring) (s : State) : State :=
  if Nat.eqb (length (messages s)) (timeNowDep s) then s
  else mkState (theme s) (messages s) (typing s) (activeThread s)
         (showSettings s) clock (length (messages s)).

(** *** MessageInput *)

Definition handleChange (v : jsstring) : Composer :=
  let lines := length (split 10 v) in
  mkComposer v (Nat.min 6 (Nat.max 1 lines)).

(** [send]: the text handed to [onSend], if any, and the composer
    afterwards. *)
Definition send (c : Composer) : option jsstring * Composer :=
  let text := trim (value c) in
  if falsy text then (None, c)
  else (Some text, mkComposer [] 1).

(** The message the "Demo attachments" button appends. *)
Definition attachDemo (env : Env) : Message.t :=
  Message.mk (uuid env) user (lit "Here are the brand assets.") (now env)
    (Some read)
    (Some [ mkAttachment image (lit "logo@2x.png");
            mkAttachment file
              (lit "brand" ++ [8209%N] ++ lit "guidelines.pdf") ]).

Definition replyDefault : jsstring :=
  lit "Nice! Sending a playful, helpful response with motion and clarity.".

Definition replyHelp : jsstring :=
  lit "Commands: /help, /shortcuts, /theme, /a11y".

Definition replyShortcuts : jsstring :=
  [8984%N] ++ lit "/Ctrl+K command palette " ++ [8226%N] ++ lit " "
    ++ [8984%N] ++ lit "/Ctrl+J toggle theme " ++ [8226%N]
    ++ lit " Enter to send".

Definition replyTheme (th : Theme) : jsstring :=
  lit "Theme is currently " ++ theme_str th ++ lit ". Use "
    ++ [8984%N] ++ lit "/Ctrl+J to toggle.".

Definition replyA11y : jsstring :=
  lit "This UI uses roles, labels, focus states, and high contrast support.".

(** What the component uses of the JavaScript library beyond the
    operations of [JS]: [String.prototype.toLowerCase], whose Unicode
    case tables are not modelled. *)
Class Builtins := {
  toLowerCase : jsstring -> jsstring
}.

(** The builtins restricted to ASCII input. *)
Definition asciiBuiltins : Builtins :=
  {| toLowerCase := toLowerCaseASCII |}.

Section Showcase.

Context {B : Builtins}.

(** The slash-command block of [handleSend]: four independent [if]s
    overwrite [reply] in turn. *)
Definition replyFor (th : Theme) (text : jsstring) : jsstring :=
  let reply := replyDefault in
  if startsWith text (lit "/") then
    let cmd := toLowerCase (trim (slice 1 text)) in
    let reply := if JS.eqb cmd (lit "help") then replyHelp else reply in
    let reply := if JS.eqb cmd (lit "shortcuts") then replyShortcuts
                 else reply in
    let reply := if JS.eqb cmd (lit "theme") then replyTheme th
                 else reply in
    let reply := if JS.eqb cmd (lit "a11y") then replyA11y else reply in
    reply
  else reply.

(** [handleSend(text)] up to its first [await]. *)
Definition handleSend (env : Env) (text : jsstring) (s : State)
  : State * Suspended :=
  let id := uuid env in
  let newMsg := Message.mk id user text (timeNow s) (Some sending) None in
  (setMessages (fun prev => prev ++ [newMsg]) s, AtWait400 id text (theme s)).

(** The segment of [handleSend] that runs when the awaited timer fires:
    the state afterwards and the next suspension, if any. *)
Definition resume (env : Env) (k : Suspended) (s : State)
  : State * option Suspended :=
  match k with
  | AtWait400 id text th =>
      (setMessages (mark id sent) s, Some (AtWait300 id text th))
  | AtWait300 id text th =>
      (setTyping true (setMessages (mark id delivered) s),
       Some (AtWait700 id text th))
  | AtWait700 id text th =>
      (s, Some (AtWait600 id (replyFor th text)))
  | AtWait600 id reply =>
      (setMessages
         (fun prev =>
            mark id read prev
              ++ [Message.mk (uuid env) bot reply (now env) None None])
         (setTyping false s),
       None)
  end.

Fixpoint resume_nth (env : Env) (n : nat) (pool : list Suspended)
  (s : State) : State * list Suspended :=
  match pool, n with
  | [], _ => (s, [])
  | k :: rest, O =>
      let (s', k') := resume env k s in
      (s', match k' with Some k2 => k2 :: rest | None => rest end)
  | k :: rest, S n' =>
      let (s', rest') := resume_nth env n' rest s in
      (s', k :: rest')
  end.

(** The [send] of [MessageInput] wired to [handleSend]. *)
Definition doSend (env : Env) (s : Sys) : Sys :=
  match send (composer s) with
  | (None, c) => mkSys (ui s) c (pending s)
  | (Some text, c) =>
      let (u, k) := handleSend env text (ui s) in
      mkSys u c (pending s ++ [k])
  end.

(** The window [keydown] listener. *)
Definition onKey (e : KeyEvent) (s : State) : State :=
  (* Ctrl/Cmd+K only raises an alert *)
  if (ctrlKey e || metaKey e) && JS.eqb (toLowerCase (key e)) (lit "j")
  then setTheme toggle s else s.

(** The textarea's [onKeyDown]. *)
Definition onKeyDown (env : Env) (e : KeyEvent) (s : Sys) : Sys :=
  if JS.eqb (key e) (lit "Enter") && negb (shiftKey e)
  then doSend env s else s.

Definition onUi (f : State -> State) (s : Sys) : Sys :=
  mkSys (f (ui s)) (composer s) (pending s).

Definition handle (env : Env) (ev : Event) (s : Sys) : Sys :=
  match ev with
  | Input v => mkSys (ui s) (handleChange v) (pending s)
  | KeyDown inTextarea e =>
      (* the textarea's handler runs first, then the event bubbles to
         the window *)
      onUi (onKey e) (if inTextarea then onKeyDown env e s else s)
  | ClickSend => doSend env s
  | ClickToggleTheme => onUi (setTheme toggle) s
  | ClickSettings => onUi (setShowSettings negb) s
  | ClickCloseSettings => onUi (setShowSettings (fun _ => false)) s
  | ClickThread n =>
      match nth_error demoThreads n with
      | Some t => onUi (setActiveThread (Thread.id t)) s
      | None => s
      end
  | ClickClear => onUi (setMessages (fun _ => [])) s
  | ClickAttach => onUi (setMessages (fun prev => prev ++ [attachDemo env])) s
  | TimerFires n =>
      let (u, pool) := resume_nth env n (pending s) (ui s) in
      mkSys u (composer s) pool
  end.

(** One event: the handler, then the render it causes. *)
Definition exec (env : Env) (ev : Event) (s : Sys) : Sys :=
  onUi (rerender (renderNow env)) (handle env ev s).

End Showcase.

(** The component as mounted: [clock] is the time of the first render. *)
Definition initial (clock : jsstring) : Sys :=
  mkSys (mkState dark introMessages false (lit "t1") false clock
           (length introMessages))
        (mkComposer [] 1) [].

(* ================================================================= *)
(** ** What is rendered *)

(** The parts of the rendered tree that depend on state. *)
Record View := mkView {
  darkClass : bool;                       (* [theme === "dark"] *)
  threadItems : list (Thread.t * bool);   (* each [ThreadItem] and [active] *)
  bubbles : list Message.t;               (* one [Bubble] per message *)
  typingShown : bool;                     (* [typing && ...] *)
  emptyStateShown : bool;                 (* [!messages.length && ...] *)
  settingsShown : bool;                   (* [showSettings && ...] *)
  textarea : Composer
}.

Definition render (s : Sys) : View :=
  let u := ui s in
  mkView
    (match theme u with dark => true | light => false end)
    (map (fun t => (t, JS.eqb (Thread.id t) (activeThread u))) demoThreads)
    (messages u)
    (typing u)
    (Nat.eqb (length (messages u)) 0)
    (showSettings u)
    (composer s).

(* ================================================================= *)
(** ** Runs *)

(** [crypto.randomUUID()] returns an identifier that is in use nowhere
    in the system: neither on a message nor in a suspended send. *)
Definition fresh (i : jsstring) (s : Sys) : Prop :=
  ~ In i (map Message.id (messages (ui s)))
  /\ ~ In i (map susp_id (pending s)).

Section Runs.

Context {B : Builtins}.

(** [s] moves to [s'] on event [ev] for some reading of the browser. *)
Definition step (s : Sys) (ev : Event) (s' : Sys) : Prop :=
  exists env, fresh (uuid env) s /\ s' = exec env ev s.

Inductive reachable : Sys -> Prop :=
| reach_init clock : reachable (initial clock)
| reach_step s ev s' : reachable s -> step s ev s' -> reachable s'.

(** The user message [handleSend] creates, with status [st]. *)
Definition sentMessage (e0 : Env) (s : Sys) (st : MsgStatus) : Message.t :=
  Message.mk (uuid e0) user (trim (value (composer s))) (timeNow (ui s))
    (Some st) None.

(** The bot message the last segment appends. *)
Definition replyMessage (e4 : Env) (s : Sys) : Message.t :=
  Message.mk (uuid e4) bot
    (replyFor (theme (ui s)) (trim (value (composer s)))) (now e4) None None.

(** A send followed by its four timers, nothing else in between.  The
    new activation is the last of the pool. *)
Definition sendChain (e0 e1 e2 e3 e4 : Env) (s : Sys) : Sys :=
  let n := length (pending s) in
  exec e4 (TimerFires n)
    (exec e3 (TimerFires n)
       (exec e2 (TimerFires n)
          (exec e1 (TimerFires n)
             (exec e0 ClickSend s)))).

End Runs.

(** *** Orders and projections used in the statements *)

(** Position in the sequence sending, sent, delivered, read. *)
Definition rank (st : MsgStatus) : nat :=
  match st with sending => 0 | sent => 1 | delivered => 2 | read => 3 end.

(** The status a suspended send last wrote to its message. *)
Definition written (k : Suspended) : MsgStatus :=
  match k with
  | AtWait400 _ _ _ => sending
  | AtWait300 _ _ _ => sent
  | AtWait700 _ _ _ => delivered
  | AtWait600 _ _ => delivered
  end.

(** *** The invariant of reachable states *)

(** What the pool records about a suspended send: the id of its
    message and the status it last wrote. *)
Definition track (k : Suspended) : jsstring * MsgStatus :=
  (susp_id k, written k).

(** A message list agrees with a list of tracked sends: no id is
    tracked twice, a message with a tracked id is a user message with
    the tracked status, and a bot message has no status. *)
Record consistentWith (l : list Message.t)
  (own : list (jsstring * MsgStatus)) : Prop := mkConsistent {
  cw_nodup : NoDup (map fst own);
  cw_owns : forall i st m,
      In (i, st) own -> In m l -> Message.id m = i ->
      Message.sender m = user /\ Message.status m = Some st;
  cw_bots : forall m,
      In m l -> Message.sender m = bot -> Message.status m = None
}.

Definition consistent (s : Sys) : Prop :=
  consistentWith (messages (ui s)) (map track (pending s)).

(** [b] is [a] or the status right after [a]. *)
Definition advances (a b : option MsgStatus) : Prop :=
  a = b \/ exists x y, a = Some x /\ b = Some y /\ rank y = S (rank x).

(** [a] is not later than [b]; a message without a status stays so. *)
Definition status_le (a b : option MsgStatus) : Prop :=
  match a, b with
  | None, None => True
  | Some x, Some y => rank x <= rank y
  | _, _ => False
  end.

(** A message without what the browser generated for it. *)
Definition content (m : Message.t)
  : Sender * jsstring * option MsgStatus * option (list Attachment) :=
  (Message.sender m, Message.text m, Message.status m, Message.attachments m).

(** A message without its status. *)
Definition unmarked (m : Message.t)
  : jsstring * Sender * jsstring * jsstring * option (list Attachment) :=
  (Message.id m, Message.sender m, Message.text m, Message.time m,
   Message.attachments m).

(** Two root states agree on everything except what the browser
    generated: message ids and times, and the memoised time. *)
Definition agree (u1 u2 : State) : Prop :=
  theme u1 = theme u2
  /\ map content (messages u1) = map content (messages u2)
  /\ typing u1 = typing u2
  /\ activeThread u1 = activeThread u2
  /\ showSettings u1 = showSettings u2.

(** The five hooks of the root component. *)
Definition hooks (s : Sys)
  : Theme * list Message.t * bool * jsstring * bool :=
  (theme (ui s), messages (ui s), typing (ui s), activeThread (ui s),
   showSettings (ui s)).

(* ================================================================= *)
(** ** Rendering a message *)

(** The icons [Bubble] and [Avatar] draw. *)
Inductive Icon :=
| Loader2 | Check | CheckCheck | Sparkles | ImageIcon | Paperclip | Bot | User.

(** [Avatar]: the icon inside the rounded square. *)
Definition Avatar (who : Sender) : Icon :=
  match who with bot => Bot | user => User end.

(** The status ticks of [Bubble]: one conditional per status. *)
Definition statusTick (st : option MsgStatus) : option Icon :=
  match st with
  | Some sending => Some Loader2
  | Some sent => Some Check
  | Some delivered => Some CheckCheck
  | Some read => Some Sparkles
  | None => None
  end.

(** What [Bubble] renders for a message. *)
Record BubbleView := mkBubble {
  alignEnd : bool;                          (* [mine ? "justify-end" : ...] *)
  avatarBefore : option Icon;               (* [!mine && <Avatar who="bot" />] *)
  chips : option (list (Icon * jsstring));  (* [m.attachments && ...] *)
  body : jsstring;                          (* [m.text] *)
  tick : option Icon;                       (* [mine && ...] *)
  timeLabel : jsstring;                     (* [m.time] *)
  avatarAfter : option Icon                 (* [mine && <Avatar who="user" />] *)
}.

Definition Bubble (m : Message.t) : BubbleView :=
  let mine := match Message.sender m with user => true | bot => false end in
  mkBubble mine
    (if mine then None else Some (Avatar bot))
    (option_map
       (map (fun a => (match att_type a with
                       | image => ImageIcon
                       | file => Paperclip
                       end, att_name a)))
       (Message.attachments m))
    (Message.text m)
    (if mine then statusTick (Message.status m) else None)
    (Message.time m)
    (if mine then Some (Avatar user) else None).

(* ================================================================= *)
(** ** Sends in flight *)

(** How many timers a suspended send still waits for. *)
Definition stepsLeft (k : Suspended) : nat :=
  match k with
  | AtWait400 _ _ _ => 4
  | AtWait300 _ _ _ => 3
  | AtWait700 _ _ _ => 2
  | AtWait600 _ _ => 1
  end.

(** The send has shown the typing indicator and not yet replied. *)
Definition awaitingReply (k : Suspended) : bool :=
  match k with
  | AtWait700 _ _ _ | AtWait600 _ _ => true
  | _ => false
  end.

(** The status rewrites a suspended send still has to do, in order. *)
Definition finish (k : Suspended) (l : list Message.t) : list Message.t :=
  match k with
  | AtWait400 i _ _ => mark i read (mark i delivered (mark i sent l))
  | AtWait300 i _ _ => mark i read (mark i delivered l)
  | AtWait700 i _ _ => mark i read l
  | AtWait600 i _ => mark i read l
  end.

(** Every message whose status is not yet read belongs to a send in
    flight that last wrote exactly that status. *)
Definition settled (l : list Message.t) (p : list Suspended) : Prop :=
  forall m st,
    In m l -> Message.status m = Some st -> st <> read ->
    In (Message.id m, st) (map track p).

(** The typing flag is only up while some send awaits its reply. *)
Definition typingJustified (t : bool) (p : list Suspended) : Prop :=
  t = true -> exists k, In k p /\ awaitingReply k = true.

(** A user message as [send] can produce it: text non-empty and
    trimmed. *)
Definition trimmedText (m : Message.t) : Prop :=
  Message.sender m = user ->
  Message.text m <> [] /\ trim (Message.text m) = Message.text m.

Section Flight.

Context {B : Builtins}.

(** The reply a suspended send will give. *)
Definition finalReply (k : Suspended) : jsstring :=
  match k with
  | AtWait400 _ text th | AtWait300 _ text th | AtWait700 _ text th =>
      replyFor th text
  | AtWait600 _ reply => reply
  end.

(** The timer of the n-th suspended send fires once per reading. *)
Fixpoint fire (n : nat) (envs : list Env) (s : Sys) : Sys :=
  match envs with
  | [] => s
  | e :: rest => fire n rest (exec e (TimerFires n) s)
  end.

(** What one event can do to the message list, the typing flag and the
    pool of sends in flight. *)
Inductive effect (env : Env) (s : Sys)
  : list Message.t -> bool -> list Suspended -> Prop :=
| eff_same :
    effect env s (messages (ui s)) (typing (ui s)) (pending s)
| eff_clear :
    effect env s [] (typing (ui s)) (pending s)
| eff_send :
    trim (value (composer s)) <> [] ->
    effect env s (messages (ui s) ++ [sentMessage env s sending])
      (typing (ui s))
      (pending s
         ++ [AtWait400 (uuid env) (trim (value (composer s))) (theme (ui s))])
| eff_attach :
    effect env s (messages (ui s) ++ [attachDemo env]) (typing (ui s))
      (pending s)
| eff_timer l1 k l2 :
    pending s = l1 ++ k :: l2 ->
    effect env s
      (messages (fst (resume env k (ui s))))
      (typing (fst (resume env k (ui s))))
      (l1 ++ match snd (resume env k (ui s)) with
             | Some k2 => k2 :: l2
             | None => l2
             end).

End Flight.


(* ================================================================= *)
(** ** Concrete runs *)

(** A few states of the component under the ASCII builtins, used to
    evaluate the model. *)
Module Demo.

(** A browser reading: a generated id and the formatted clock. *)
Definition env (u t : string) : Env := mkEnv (lit u) (lit t) (lit t).

Definition start : Sys := initial (lit "10:00").

(** The third of the intro messages, a bot message. *)
Definition m3 : Message.t :=
  nth 2 introMessages (Message.mk [] bot [] [] None None).

(** The component after [v] was typed into the composer. *)
Definition typed (v : jsstring) : Sys :=
  exec (B := asciiBuiltins) (env "id-0" "10:04") (Input v) start.

(** ... and after the Send button was clicked. *)
Definition sentOnce (v : jsstring) : Sys :=
  exec (B := asciiBuiltins) (env "id-1" "10:05") ClickSend (typed v).

(** The light-theme variant of [typed]. *)
Definition typedLight (v : jsstring) : Sys :=
  exec (B := asciiBuiltins) (env "id-0" "10:04") ClickToggleTheme (typed v).

(** A whole send of [v], its timers firing at the given readings. *)
Definition chain (s : Sys) : Sys :=
  sendChain (B := asciiBuiltins) (env "id-1" "10:05") (env "id-2" "10:05")
    (env "id-3" "10:05") (env "id-4" "10:05") (env "id-5" "10:06") s.

End Demo.

(** More states for evaluating the model: a send of "hello" in flight,
    before and after its first two timers. *)
Module Sample.

Definition inFlight : Sys := Demo.sentOnce (lit "hello").

(** The user message of [inFlight], with status [st]. *)
Definition hello (st : MsgStatus) : Message.t :=
  Message.mk (lit "id-1") user (lit "hello") (lit "10:00") (Some st) None.

Definition waiting : Suspended :=
  AtWait400 (lit "id-1") (lit "hello") dark.

Definition afterSent : Sys :=
  exec (B := asciiBuiltins) (Demo.env "id-2" "10:05") (TimerFires 0) inFlight.

(** The typing indicator is up here. *)
Definition typingNow : Sys :=
  exec (B := asciiBuiltins) (Demo.env "id-3" "10:05") (TimerFires 0) afterSent.

Definition shiftEnter : KeyEvent := mkKey (lit "Enter") false false true.

Definition timers : list Env :=
  [Demo.env "id-2" "10:05"; Demo.env "id-3" "10:05"; Demo.env "id-4" "10:05"].

End Sample.


(* ================================================================= *)
(** ** Facts about the string operations *)

Lemma eqb_eq (a b : jsstring) : JS.eqb a b = true <-> a = b.
Proof.
  revert b; induction a as [|x a IH]; intros [|y b]; simpl;
    try (split; [discriminate | discriminate]); try tauto.
  rewrite andb_true_iff, N.eqb_eq, IH.
  split; [intros [-> ->]; reflexivity | intros H; inversion H; auto].
Qed.

Lemma eqb_refl (a : jsstring) : JS.eqb a a = true.
Proof. apply eqb_eq; reflexivity. Qed.

Lemma eqb_neq (a b : jsstring) : JS.eqb a b = false <-> a <> b.
Proof.
  rewrite <- eqb_eq. destruct (JS.eqb a b); split; congruence.
Qed.

Lemma trimStart_blank (v : jsstring) :
  forallb isWhiteSpace v = true -> trimStart v = [].
Proof.
  induction v as [|c v IH]; simpl; [reflexivity|].
  intros H; apply andb_true_iff in H as [Hc Hv].
  rewrite Hc; auto.
Qed.

Lemma trimStart_nil_blank (v : jsstring) :
  trimStart v = [] -> forallb isWhiteSpace v = true.
Proof.
  induction v as [|c v IH]; simpl; [reflexivity|].
  destruct (isWhiteSpace c); [exact IH | discriminate].
Qed.

Lemma trimStart_head (v : jsstring) (c : N) (r : jsstring) :
  trimStart v = c :: r -> isWhiteSpace c = false.
Proof.
  induction v as [|x v IH]; simpl; [discriminate|].
  destruct (isWhiteSpace x) eqn:E; [exact IH|].
  intros H; inversion H; subst; exact E.
Qed.

(** A string trims to [""] exactly when it is empty or all whitespace. *)
Lemma trim_nil_iff (v : jsstring) :
  trim v = [] <-> forallb isWhiteSpace v = true.
Proof.
  unfold trim, trimEnd; split.
  - intros H. destruct (trimStart v) as [|c r] eqn:E.
    + apply trimStart_nil_blank; exact E.
    + exfalso. apply trimStart_head in E as Hc.
      assert (Hn : trimStart (rev (c :: r)) = []).
      { destruct (trimStart (rev (c :: r))) as [|y l] eqn:E2;
          [reflexivity | simpl in H].
        apply (f_equal (@length N)) in H.
        rewrite length_app in H; simpl in H; lia. }
      assert (forallb isWhiteSpace (rev (c :: r)) = true) as Hall
          by (apply trimStart_nil_blank; exact Hn).
      simpl in Hall. rewrite forallb_app in Hall.
      apply andb_true_iff in Hall as [_ Hall]. simpl in Hall.
      rewrite Hc in Hall; discriminate.
  - intros H. rewrite (trimStart_blank v H). reflexivity.
Qed.

Lemma split_length (sep : N) (v : jsstring) :
  length (split sep v) = S (count_occ N.eq_dec v sep).
Proof.
  induction v as [|c v IH]; simpl; [reflexivity|].
  destruct (N.eqb_spec c sep) as [->|Hne].
  - destruct (N.eq_dec sep sep); [simpl; rewrite IH; reflexivity | congruence].
  - destruct (N.eq_dec c sep); [congruence|].
    destruct (split sep v); simpl in *; congruence.
Qed.

(* ================================================================= *)
(** ** Facts about the operations *)

Lemma mark_length i st l : length (mark i st l) = length l.
Proof. unfold mark; apply length_map. Qed.

Lemma mark_app i st l1 l2 : mark i st (l1 ++ l2) = mark i st l1 ++ mark i st l2.
Proof. unfold mark; apply map_app. Qed.

Lemma mark_absent i st l :
  ~ In i (map Message.id l) -> mark i st l = l.
Proof.
  induction l as [|m l IH]; simpl; [reflexivity|].
  intros H. unfold marker at 1.
  destruct (JS.eqb (Message.id m) i) eqn:E.
  - apply eqb_eq in E. tauto.
  - rewrite IH; tauto.
Qed.

Lemma mark_unmarked i st l : map unmarked (mark i st l) = map unmarked l.
Proof.
  unfold mark; rewrite map_map; apply map_ext; intros m.
  unfold marker; destruct (JS.eqb (Message.id m) i); reflexivity.
Qed.

Lemma rerender_hooks clock s :
  theme (rerender clock s) = theme s
  /\ messages (rerender clock s) = messages s
  /\ typing (rerender clock s) = typing s
  /\ activeThread (rerender clock s) = activeThread s
  /\ showSettings (rerender clock s) = showSettings s.
Proof.
  unfold rerender; destruct (Nat.eqb _ _); simpl; auto.
Qed.

Lemma rerender_messages clock s : messages (rerender clock s) = messages s.
Proof. apply rerender_hooks. Qed.

Lemma send_blank c :
  trim (value c) = [] -> send c = (None, c).
Proof. unfold send; intros ->; reflexivity. Qed.

Lemma send_text c :
  trim (value c) <> [] -> send c = (Some (trim (value c)), mkComposer [] 1).
Proof.
  unfold send; intros H. destruct (trim (value c)); [congruence | reflexivity].
Qed.

Section Properties.

Context {B : Builtins}.

Lemma exec_messages env ev s :
  messages (ui (exec env ev s)) = messages (ui (handle env ev s)).
Proof. apply rerender_messages. Qed.

Lemma exec_fields env ev s :
  theme (ui (exec env ev s)) = theme (ui (handle env ev s))
  /\ messages (ui (exec env ev s)) = messages (ui (handle env ev s))
  /\ typing (ui (exec env ev s)) = typing (ui (handle env ev s))
  /\ activeThread (ui (exec env ev s)) = activeThread (ui (handle env ev s))
  /\ showSettings (ui (exec env ev s)) = showSettings (ui (handle env ev s)).
Proof. apply rerender_hooks. Qed.

Lemma exec_hooks env ev s : hooks (exec env ev s) = hooks (handle env ev s).
Proof.
  unfold hooks.
  destruct (exec_fields env ev s) as (-> & -> & -> & -> & ->); reflexivity.
Qed.

Lemma onKey_theme e u :
  theme (onKey e u)
  = if (ctrlKey e || metaKey e) && JS.eqb (toLowerCase (key e)) (lit "j")
    then toggle (theme u) else theme u.
Proof. unfold onKey; destruct (_ && _); reflexivity. Qed.

Lemma onKey_frame e u :
  messages (onKey e u) = messages u /\ typing (onKey e u) = typing u
  /\ activeThread (onKey e u) = activeThread u
  /\ showSettings (onKey e u) = showSettings u.
Proof. unfold onKey; destruct (_ && _); simpl; auto. Qed.

Lemma doSend_blank env s :
  trim (value (composer s)) = [] -> doSend env s = s.
Proof.
  intros H; unfold doSend; rewrite (send_blank _ H).
  destruct s; reflexivity.
Qed.

Lemma doSend_text env s :
  trim (value (composer s)) <> [] ->
  doSend env s
  = mkSys (setMessages
             (fun prev =>
                prev ++ [Message.mk (uuid env) user (trim (value (composer s)))
                           (timeNow (ui s)) (Some sending) None])
             (ui s))
          (mkComposer [] 1)
          (pending s
             ++ [AtWait400 (uuid env) (trim (value (composer s)))
                   (theme (ui s))]).
Proof.
  intros H; unfold doSend; rewrite (send_text _ H); reflexivity.
Qed.

Lemma doSend_frame env s :
  theme (ui (doSend env s)) = theme (ui s)
  /\ typing (ui (doSend env s)) = typing (ui s)
  /\ activeThread (ui (doSend env s)) = activeThread (ui s)
  /\ showSettings (ui (doSend env s)) = showSettings (ui s).
Proof.
  destruct (list_eq_dec N.eq_dec (trim (value (composer s))) []) as [E|E].
  - rewrite doSend_blank by exact E; auto.
  - rewrite doSend_text by exact E; simpl; auto.
Qed.

Lemma onKeyDown_frame env e s :
  theme (ui (onKeyDown env e s)) = theme (ui s)
  /\ typing (ui (onKeyDown env e s)) = typing (ui s)
  /\ activeThread (ui (onKeyDown env e s)) = activeThread (ui s)
  /\ showSettings (ui (onKeyDown env e s)) = showSettings (ui s).
Proof.
  unfold onKeyDown; destruct (_ && _); auto using doSend_frame.
Qed.

(* ----------------------------------------------------------------- *)
(** *** Theme *)

(** C4: the theme toggle maps light to dark and dark to light, these
    being the only two theme values, and toggling twice gives back the
    theme one started from.  This holds for the toggle button and for
    the Ctrl/Cmd+J shortcut, which toggles exactly when Ctrl or Meta is
    held and the key lowercases to "j". *)
Theorem theme_toggle_flips_and_twice_restores (env1 env2 : Env) (s : Sys) :
  toggle light = dark /\ toggle dark = light
  /\ (forall t : Theme, t = light \/ t = dark)
  /\ (forall t : Theme, toggle (toggle t) = t)
  /\ theme (ui (exec env1 ClickToggleTheme s)) = toggle (theme (ui s))
  /\ hooks (exec env2 ClickToggleTheme (exec env1 ClickToggleTheme s))
     = hooks s
  /\ (forall inTextarea e,
        theme (ui (exec env1 (KeyDown inTextarea e) s))
        = if (ctrlKey e || metaKey e)
             && JS.eqb (toLowerCase (key e)) (lit "j")
          then toggle (theme (ui s)) else theme (ui s)).
Proof.
  repeat split.
  - intros []; auto.
  - intros []; reflexivity.
  - destruct (exec_fields env1 ClickToggleTheme s) as (-> & _); reflexivity.
  - rewrite !exec_hooks. unfold hooks; simpl.
    destruct (rerender_hooks (renderNow env1) (setTheme toggle (ui s)))
      as (-> & -> & -> & -> & ->); simpl.
    destruct (theme (ui s)); reflexivity.
  - intros b e.
    destruct (exec_fields env1 (KeyDown b e) s) as (-> & _); simpl.
    rewrite onKey_theme.
    destruct b; [|reflexivity].
    destruct (onKeyDown_frame env1 e s) as (-> & _); reflexivity.
Qed.

(* ----------------------------------------------------------------- *)
(** *** Clear and the empty state *)

(** C5: the Clear button sets the message list to the empty list, and
    the empty-state view is rendered exactly when the message list is
    empty (so it is rendered right after a clear). *)
Theorem clear_empties_and_empty_state_shows (env : Env) (s : Sys) :
  messages (ui (exec env ClickClear s)) = []
  /\ emptyStateShown (render (exec env ClickClear s)) = true
  /\ (forall s0 : Sys,
        emptyStateShown (render s0) = true <-> messages (ui s0) = []).
Proof.
  assert (H : messages (ui (exec env ClickClear s)) = [])
    by (rewrite exec_messages; reflexivity).
  split; [exact H|]. split.
  - change (Nat.eqb (length (messages (ui (exec env ClickClear s)))) 0 = true).
    rewrite H; reflexivity.
  - intros s0; unfold render; simpl.
    rewrite Nat.eqb_eq. split.
    + apply length_zero_iff_nil.
    + intros ->; reflexivity.
Qed.

(* ----------------------------------------------------------------- *)
(** *** Thread selection *)

(** C6: clicking a thread item changes the active-thread id and nothing
    else: the sidebar still lists the static demo threads, and the
    message list (hence the rendered bubbles), theme, typing flag,
    settings visibility, composer and the sends in flight are as
    before. *)
Theorem select_thread_changes_only_active (env : Env) (n : nat) (s : Sys) :
  let s' := exec env (ClickThread n) s in
  activeThread (ui s')
  = match nth_error demoThreads n with
    | Some t => Thread.id t
    | None => activeThread (ui s)
    end
  /\ map fst (threadItems (render s')) = demoThreads
  /\ map snd (threadItems (render s'))
     = map (fun t => JS.eqb (Thread.id t) (activeThread (ui s'))) demoThreads
  /\ messages (ui s') = messages (ui s)
  /\ bubbles (render s') = bubbles (render s)
  /\ theme (ui s') = theme (ui s)
  /\ typing (ui s') = typing (ui s)
  /\ showSettings (ui s') = showSettings (ui s)
  /\ composer s' = composer s
  /\ pending s' = pending s.
Proof.
  intros s'.
  destruct (exec_fields env (ClickThread n) s) as (Ht & Hm & Hy & Ha & Hs).
  fold s' in Ht, Hm, Hy, Ha, Hs.
  assert (Hm' : messages (ui s') = messages (ui s))
    by (rewrite Hm; simpl; destruct (nth_error demoThreads n); reflexivity).
  repeat split; try exact Hm'.
  - rewrite Ha; simpl. destruct (nth_error demoThreads n); reflexivity.
  - rewrite Ht; simpl. destruct (nth_error demoThreads n); reflexivity.
  - rewrite Hy; simpl. destruct (nth_error demoThreads n); reflexivity.
  - rewrite Hs; simpl. destruct (nth_error demoThreads n); reflexivity.
  - unfold s'; simpl. destruct (nth_error demoThreads n); reflexivity.
  - unfold s'; simpl. destruct (nth_error demoThreads n); reflexivity.
Qed.

(* ----------------------------------------------------------------- *)
(** *** The composer *)

(** C2: when the composer's text is empty or only whitespace, invoking
    send, by the Send button or by a key press in the textarea (Enter
    included), leaves the message list as it was, and starts no send. *)
Theorem blank_send_adds_no_message (env : Env) (s : Sys) (e : KeyEvent) :
  forallb isWhiteSpace (value (composer s)) = true ->
  messages (ui (exec env ClickSend s)) = messages (ui s)
  /\ pending (exec env ClickSend s) = pending s
  /\ messages (ui (exec env (KeyDown true e) s)) = messages (ui s)
  /\ pending (exec env (KeyDown true e) s) = pending s.
Proof.
  intros Hblank. apply trim_nil_iff in Hblank.
  assert (Hk : onKeyDown env e s = s)
    by (unfold onKeyDown; destruct (_ && _);
        [apply doSend_blank; exact Hblank | reflexivity]).
  repeat split.
  - rewrite exec_messages; simpl. rewrite doSend_blank by exact Hblank.
    reflexivity.
  - simpl. rewrite doSend_blank by exact Hblank. reflexivity.
  - rewrite exec_messages; simpl. rewrite Hk. apply onKey_frame.
  - simpl. rewrite Hk. reflexivity.
Qed.

(** C10: a send of text that is non-empty after trimming resets the
    composer's value to the empty string and its row count to 1
    (by the button, and by Enter without Shift); and whatever is typed,
    the row count kept is the number of lines clamped to between 1 and
    6. *)
Theorem composer_resets_and_rows_clamped (env : Env) (s : Sys) :
  trim (value (composer s)) <> [] ->
  composer (exec env ClickSend s) = mkComposer [] 1
  /\ (forall e, key e = lit "Enter" -> shiftKey e = false ->
        composer (exec env (KeyDown true e) s) = mkComposer [] 1)
  /\ (forall v,
        let c := composer (exec env (Input v) s) in
        value c = v
        /\ 1 <= rows c <= 6
        /\ rows c = Nat.min 6 (S (count_occ N.eq_dec v 10%N))).
Proof.
  intros Htext. split; [|split].
  - simpl. rewrite doSend_text by exact Htext. reflexivity.
  - intros e He Hs. simpl. unfold onKeyDown.
    rewrite He, Hs, eqb_refl; simpl.
    rewrite doSend_text by exact Htext. reflexivity.
  - intros v c.
    change c with (handleChange v). unfold handleChange; cbn [value rows].
    rewrite split_length. repeat split; lia.
Qed.

(* ----------------------------------------------------------------- *)
(** *** The send flow *)

Lemma resume_nth_last env pool k u :
  resume_nth env (length pool) (pool ++ [k]) u
  = (fst (resume env k u),
     pool ++ match snd (resume env k u) with
             | Some k2 => [k2]
             | None => []
             end).
Proof.
  induction pool as [|k0 pool IH]; simpl.
  - destruct (resume env k u) as [u' [k2|]]; reflexivity.
  - rewrite IH; reflexivity.
Qed.

(** What a timer segment does to the message list, whatever the state
    it finds. *)
Lemma resume_messages env k u :
  messages (fst (resume env k u))
  = match k with
    | AtWait400 i _ _ => mark i sent (messages u)
    | AtWait300 i _ _ => mark i delivered (messages u)
    | AtWait700 _ _ _ => messages u
    | AtWait600 i reply =>
        mark i read (messages u)
          ++ [Message.mk (uuid env) bot reply (now env) None None]
    end.
Proof. destruct k; reflexivity. Qed.

Lemma resume_frame env k u :
  theme (fst (resume env k u)) = theme u
  /\ activeThread (fst (resume env k u)) = activeThread u
  /\ showSettings (fst (resume env k u)) = showSettings u.
Proof. destruct k; simpl; auto. Qed.

Lemma timer_last env s pool k :
  pending s = pool ++ [k] ->
  ui (exec env (TimerFires (length pool)) s)
  = rerender (renderNow env) (fst (resume env k (ui s)))
  /\ composer (exec env (TimerFires (length pool)) s) = composer s
  /\ pending (exec env (TimerFires (length pool)) s)
     = pool ++ match snd (resume env k (ui s)) with
               | Some k2 => [k2]
               | None => []
               end.
Proof.
  intros Hp. unfold exec, handle. rewrite Hp, resume_nth_last.
  simpl; auto.
Qed.

(** The states a send goes through when only its own timers fire. *)
Lemma sendChain_stages e0 e1 e2 e3 e4 s :
  trim (value (composer s)) <> [] ->
  let i := uuid e0 in
  let text := trim (value (composer s)) in
  let n := length (pending s) in
  let s1 := exec e0 ClickSend s in
  let s2 := exec e1 (TimerFires n) s1 in
  let s3 := exec e2 (TimerFires n) s2 in
  let s4 := exec e3 (TimerFires n) s3 in
  let s5 := exec e4 (TimerFires n) s4 in
  let l1 := messages (ui s) ++ [sentMessage e0 s sending] in
  (messages (ui s1) = l1
   /\ pending s1 = pending s ++ [AtWait400 i text (theme (ui s))])
  /\ (messages (ui s2) = mark i sent l1
      /\ pending s2 = pending s ++ [AtWait300 i text (theme (ui s))])
  /\ (messages (ui s3) = mark i delivered (mark i sent l1)
      /\ typing (ui s3) = true
      /\ pending s3 = pending s ++ [AtWait700 i text (theme (ui s))])
  /\ (messages (ui s4) = mark i delivered (mark i sent l1)
      /\ typing (ui s4) = true
      /\ pending s4
         = pending s ++ [AtWait600 i (replyFor (theme (ui s)) text)])
  /\ (messages (ui s5)
      = mark i read (mark i delivered (mark i sent l1))
          ++ [replyMessage e4 s]
      /\ typing (ui s5) = false
      /\ pending s5 = pending s
      /\ composer s5 = mkComposer [] 1
      /\ theme (ui s5) = theme (ui s)
      /\ activeThread (ui s5) = activeThread (ui s)
      /\ showSettings (ui s5) = showSettings (ui s)).
Proof.
  intros Htext i text n s1 s2 s3 s4 s5 l1.
  assert (H1 : ui s1
               = rerender (renderNow e0)
                   (setMessages
                      (fun prev => prev ++ [sentMessage e0 s sending]) (ui s))
               /\ composer s1 = mkComposer [] 1
               /\ pending s1 = pending s ++ [AtWait400 i text (theme (ui s))]).
  { unfold s1, exec, handle. rewrite doSend_text by exact Htext.
    simpl; auto. }
  destruct H1 as (U1 & C1 & P1).
  destruct (timer_last e1 s1 _ _ P1) as (U2 & C2 & P2).
  fold n in U2, C2, P2; fold s2 in U2, C2, P2. simpl in P2.
  destruct (timer_last e2 s2 _ _ P2) as (U3 & C3 & P3).
  fold n in U3, C3, P3; fold s3 in U3, C3, P3. simpl in P3.
  destruct (timer_last e3 s3 _ _ P3) as (U4 & C4 & P4).
  fold n in U4, C4, P4; fold s4 in U4, C4, P4. simpl in P4.
  destruct (timer_last e4 s4 _ _ P4) as (U5 & C5 & P5).
  fold n in U5, C5, P5; fold s5 in U5, C5, P5. simpl in P5.
  rewrite app_nil_r in P5.
  assert (M1 : messages (ui s1) = l1)
    by (rewrite U1, rerender_messages; reflexivity).
  assert (M2 : messages (ui s2) = mark i sent l1)
    by (rewrite U2, rerender_messages, resume_messages, M1; reflexivity).
  assert (M3 : messages (ui s3) = mark i delivered (mark i sent l1))
    by (rewrite U3, rerender_messages, resume_messages, M2; reflexivity).
  assert (M4 : messages (ui s4) = mark i delivered (mark i sent l1))
    by (rewrite U4, rerender_messages, resume_messages, M3; reflexivity).
  assert (T3 : typing (ui s3) = true).
  { rewrite U3.
    destruct (rerender_hooks (renderNow e2)
                (fst (resume e2 (AtWait300 i text (theme (ui s))) (ui s2))))
      as (_ & _ & -> & _). reflexivity. }
  assert (T4 : typing (ui s4) = true).
  { rewrite U4.
    destruct (rerender_hooks (renderNow e3)
                (fst (resume e3 (AtWait700 i text (theme (ui s))) (ui s3))))
      as (_ & _ & -> & _). exact T3. }
  assert (F : forall e k u,
             theme (rerender (renderNow e) (fst (resume e k u))) = theme u
             /\ activeThread (rerender (renderNow e) (fst (resume e k u)))
                = activeThread u
             /\ showSettings (rerender (renderNow e) (fst (resume e k u)))
                = showSettings u).
  { intros e k u.
    destruct (rerender_hooks (renderNow e) (fst (resume e k u)))
      as (-> & _ & _ & -> & ->). apply resume_frame. }
  assert (F1 : theme (ui s1) = theme (ui s)
               /\ activeThread (ui s1) = activeThread (ui s)
               /\ showSettings (ui s1) = showSettings (ui s)).
  { rewrite U1.
    destruct (rerender_hooks (renderNow e0)
                (setMessages (fun prev => prev ++ [sentMessage e0 s sending])
                   (ui s))) as (-> & _ & _ & -> & ->). simpl; auto. }
  repeat split; auto.
  - rewrite U5, rerender_messages, resume_messages, M4; reflexivity.
  - rewrite U5.
    destruct (rerender_hooks (renderNow e4)
                (fst (resume e4 (AtWait600 i (replyFor (theme (ui s)) text))
                        (ui s4)))) as (_ & _ & -> & _). reflexivity.
  - congruence.
  - rewrite U5.
    destruct (F e4 (AtWait600 i (replyFor (theme (ui s)) text)) (ui s4))
      as (-> & _). rewrite U4.
    destruct (F e3 (AtWait700 i text (theme (ui s))) (ui s3)) as (-> & _).
    rewrite U3.
    destruct (F e2 (AtWait300 i text (theme (ui s))) (ui s2)) as (-> & _).
    rewrite U2.
    destruct (F e1 (AtWait400 i text (theme (ui s))) (ui s1)) as (-> & _).
    apply F1.
  - rewrite U5.
    destruct (F e4 (AtWait600 i (replyFor (theme (ui s)) text)) (ui s4))
      as (_ & -> & _). rewrite U4.
    destruct (F e3 (AtWait700 i text (theme (ui s))) (ui s3)) as (_ & -> & _).
    rewrite U3.
    destruct (F e2 (AtWait300 i text (theme (ui s))) (ui s2)) as (_ & -> & _).
    rewrite U2.
    destruct (F e1 (AtWait400 i text (theme (ui s))) (ui s1)) as (_ & -> & _).
    apply F1.
  - rewrite U5.
    destruct (F e4 (AtWait600 i (replyFor (theme (ui s)) text)) (ui s4))
      as (_ & _ & ->). rewrite U4.
    destruct (F e3 (AtWait700 i text (theme (ui s))) (ui s3)) as (_ & _ & ->).
    rewrite U3.
    destruct (F e2 (AtWait300 i text (theme (ui s))) (ui s2)) as (_ & _ & ->).
    rewrite U2.
    destruct (F e1 (AtWait400 i text (theme (ui s))) (ui s1)) as (_ & _ & ->).
    apply F1.
Qed.

Lemma mark_sentMessage e0 s st st' :
  fresh (uuid e0) s ->
  mark (uuid e0) st' (messages (ui s) ++ [sentMessage e0 s st])
  = messages (ui s) ++ [sentMessage e0 s st'].
Proof.
  intros [Hm _]. rewrite mark_app, mark_absent by exact Hm.
  simpl. unfold marker; simpl. rewrite eqb_refl. reflexivity.
Qed.

(** Every timer segment, in whatever state the events in between have
    left, keeps each message as it is up to its status, and only the
    last one adds a message: the bot reply. *)
Lemma resume_unmarked env k u :
  map unmarked (messages (fst (resume env k u)))
  = map unmarked (messages u)
      ++ match k with
         | AtWait600 _ reply => [(uuid env, bot, reply, now env, None)]
         | _ => []
         end.
Proof.
  rewrite resume_messages. destruct k;
    rewrite ?map_app, ?mark_unmarked, ?app_nil_r; reflexivity.
Qed.

(** C1: when the composer's text is non-empty after trimming, send
    appends exactly one user message (the trimmed text, status sending)
    to the message list; its first three timer segments add and remove
    nothing (they only rewrite statuses); and the last one appends
    exactly one bot reply, so that the completed chain has added two
    messages and removed none.  When the generated id is fresh, as
    [crypto.randomUUID()] makes it, the final list is literally the
    original one followed by the user message, now read, and the bot
    reply.  The last conjunct says the same of each timer segment in
    whatever state interleaved events have left. *)
Theorem send_appends_user_message_then_bot_reply
  (e0 e1 e2 e3 e4 : Env) (s : Sys) :
  trim (value (composer s)) <> [] ->
  let n := length (pending s) in
  let s1 := exec e0 ClickSend s in
  let s2 := exec e1 (TimerFires n) s1 in
  let s3 := exec e2 (TimerFires n) s2 in
  let s4 := exec e3 (TimerFires n) s3 in
  let s5 := exec e4 (TimerFires n) s4 in
  messages (ui s1) = messages (ui s) ++ [sentMessage e0 s sending]
  /\ map unmarked (messages (ui s2)) = map unmarked (messages (ui s1))
  /\ map unmarked (messages (ui s3)) = map unmarked (messages (ui s1))
  /\ map unmarked (messages (ui s4)) = map unmarked (messages (ui s1))
  /\ map unmarked (messages (ui s5))
     = map unmarked (messages (ui s1)) ++ [unmarked (replyMessage e4 s)]
  /\ length (messages (ui s5)) = length (messages (ui s)) + 2
  /\ (fresh (uuid e0) s ->
      messages (ui s5)
      = messages (ui s) ++ [sentMessage e0 s read; replyMessage e4 s])
  /\ s5 = sendChain e0 e1 e2 e3 e4 s
  /\ Message.sender (sentMessage e0 s sending) = user
  /\ Message.sender (replyMessage e4 s) = bot
  /\ pending s5 = pending s
  /\ (forall env k u,
        map unmarked (messages (fst (resume env k u)))
        = map unmarked (messages u)
            ++ match k with
               | AtWait600 _ reply => [(uuid env, bot, reply, now env, None)]
               | _ => []
               end).
Proof.
  intros Htext n s1 s2 s3 s4 s5.
  destruct (sendChain_stages e0 e1 e2 e3 e4 s Htext)
    as ((M1 & _) & (M2 & _) & (M3 & _) & (M4 & _) & (M5 & _ & P5 & _)).
  fold n in M1, M2, M3, M4, M5, P5.
  fold s1 in M1, M2, M3, M4, M5, P5. fold s2 in M2, M3, M4, M5, P5.
  fold s3 in M3, M4, M5, P5. fold s4 in M4, M5, P5. fold s5 in M5, P5.
  split; [exact M1|].
  split; [rewrite M2, M1, mark_unmarked; reflexivity|].
  split; [rewrite M3, M1, !mark_unmarked; reflexivity|].
  split; [rewrite M4, M1, !mark_unmarked; reflexivity|].
  split; [rewrite M5, M1, map_app, !mark_unmarked; reflexivity|].
  split; [rewrite M5, !length_app, !mark_length, length_app; simpl; lia|].
  split.
  { intros Hfresh. rewrite M5.
    rewrite (mark_sentMessage e0 s sending sent Hfresh).
    rewrite (mark_sentMessage e0 s sent delivered Hfresh).
    rewrite (mark_sentMessage e0 s delivered read Hfresh).
    rewrite <- app_assoc. reflexivity. }
  repeat split; auto.
  apply resume_unmarked.
Qed.

(* ----------------------------------------------------------------- *)
(** *** Slash commands *)

Lemma replyFor_table th text :
  replyFor th text
  = if startsWith text (lit "/") then
      let cmd := toLowerCase (trim (slice 1 text)) in
      if JS.eqb cmd (lit "a11y") then replyA11y
      else if JS.eqb cmd (lit "theme") then replyTheme th
      else if JS.eqb cmd (lit "shortcuts") then replyShortcuts
      else if JS.eqb cmd (lit "help") then replyHelp
      else replyDefault
    else replyDefault.
Proof.
  unfold replyFor. destruct (startsWith text (lit "/")); [|reflexivity].
  cbv zeta. generalize (toLowerCase (trim (slice 1 text))); intros cmd.
  destruct (JS.eqb cmd (lit "a11y")), (JS.eqb cmd (lit "theme")),
    (JS.eqb cmd (lit "shortcuts")), (JS.eqb cmd (lit "help")); reflexivity.
Qed.

(** C8, as the code has it: when the sent text starts with "/" and the
    rest, trimmed and lowercased, is help, shortcuts or a11y, the bot
    reply appended at the end of the delay chain is that command's fixed
    string; when it is theme, the reply is "Theme is currently T. Use
    Cmd/Ctrl+J to toggle." with T the theme in effect when the message
    was sent; for every other sent text it is the fixed default
    string. *)
Theorem slash_command_reply (e0 e1 e2 e3 e4 : Env) (s : Sys) :
  let text := trim (value (composer s)) in
  let th := theme (ui s) in
  let cmd := toLowerCase (trim (slice 1 text)) in
  text <> [] ->
  exists l b,
    messages (ui (sendChain e0 e1 e2 e3 e4 s)) = l ++ [b]
    /\ Message.sender b = bot
    /\ (startsWith text (lit "/") = true -> cmd = lit "help" ->
        Message.text b = replyHelp)
    /\ (startsWith text (lit "/") = true -> cmd = lit "shortcuts" ->
        Message.text b = replyShortcuts)
    /\ (startsWith text (lit "/") = true -> cmd = lit "theme" ->
        Message.text b = replyTheme th)
    /\ (startsWith text (lit "/") = true -> cmd = lit "a11y" ->
        Message.text b = replyA11y)
    /\ (startsWith text (lit "/") = false
        \/ (cmd <> lit "help" /\ cmd <> lit "shortcuts"
            /\ cmd <> lit "theme" /\ cmd <> lit "a11y") ->
        Message.text b = replyDefault).
Proof.
  intros text th cmd Htext.
  destruct (sendChain_stages e0 e1 e2 e3 e4 s Htext)
    as (_ & _ & _ & _ & (M5 & _)).
  eexists; exists (replyMessage e4 s).
  split; [exact M5|]. split; [reflexivity|].
  unfold replyMessage; cbn [Message.text].
  fold text th. rewrite replyFor_table. fold cmd.
  repeat split.
  - intros -> ->; reflexivity.
  - intros -> ->; reflexivity.
  - intros -> ->; reflexivity.
  - intros -> ->; reflexivity.
  - intros [-> | (H1 & H2 & H3 & H4)]; [reflexivity|].
    apply eqb_neq in H1, H2, H3, H4. cbv zeta.
    rewrite H1, H2, H3, H4.
    destruct (startsWith text (lit "/")); reflexivity.
Qed.

(* ----------------------------------------------------------------- *)
(** *** Consistency of messages and sends in flight *)

Lemma cw_nil own : NoDup (map fst own) -> consistentWith [] own.
Proof. intros H; split; [exact H | intros ? ? ? _ [] | intros ? []]. Qed.

Lemma cw_mark l o1 o2 i st st' :
  consistentWith l (o1 ++ (i, st) :: o2) ->
  consistentWith (mark i st' l) (o1 ++ (i, st') :: o2).
Proof.
  intros [Hnd Hown Hbot].
  assert (Hother : forall j sj, In (j, sj) (o1 ++ o2) -> j <> i).
  { intros j sj Hin ->. rewrite map_app in Hnd; simpl in Hnd.
    apply NoDup_remove_2 in Hnd. apply Hnd.
    rewrite <- map_app. change i with (fst (i, sj)).
    apply in_map; exact Hin. }
  split.
  - rewrite map_app in *; exact Hnd.
  - intros j sj m' Hj Hm' Hid.
    unfold mark in Hm'. apply in_map_iff in Hm' as (m & <- & Hm).
    unfold marker in *. destruct (JS.eqb (Message.id m) i) eqn:E.
    + apply eqb_eq in E. simpl in Hid. rewrite E in Hid. subst j.
      destruct (Hown i st m) as [Hs _];
        [apply in_elt | exact Hm | exact E |].
      apply in_app_or in Hj as [Hj | [Hj | Hj]].
      * exfalso; apply (Hother i sj); [apply in_or_app; auto | reflexivity].
      * inversion Hj; subst; simpl; auto.
      * exfalso; apply (Hother i sj); [apply in_or_app; auto | reflexivity].
    + apply eqb_neq in E.
      apply (Hown j sj m); [|exact Hm | exact Hid].
      apply in_app_or in Hj as [Hj | [Hj | Hj]].
      * apply in_or_app; auto.
      * inversion Hj; subst; congruence.
      * apply in_or_app; right; right; exact Hj.
  - intros m' Hm' Hb.
    unfold mark in Hm'. apply in_map_iff in Hm' as (m & <- & Hm).
    unfold marker in *. destruct (JS.eqb (Message.id m) i) eqn:E.
    + apply eqb_eq in E. simpl in Hb.
      destruct (Hown i st m) as [Hs _];
        [apply in_elt | exact Hm | exact E | congruence].
    + apply Hbot; assumption.
Qed.

Lemma cw_drop l o1 o2 p :
  consistentWith l (o1 ++ p :: o2) -> consistentWith l (o1 ++ o2).
Proof.
  intros [Hnd Hown Hbot]. split.
  - rewrite map_app in *; simpl in Hnd.
    apply NoDup_remove_1 in Hnd; exact Hnd.
  - intros j sj m Hj. apply (Hown j sj m).
    apply in_app_or in Hj as [Hj | Hj]; apply in_or_app; simpl; auto.
  - exact Hbot.
Qed.

Lemma cw_snoc_message l own m0 :
  consistentWith l own ->
  ~ In (Message.id m0) (map fst own) ->
  (Message.sender m0 = bot -> Message.status m0 = None) ->
  consistentWith (l ++ [m0]) own.
Proof.
  intros [Hnd Hown Hbot] Hfresh Hm0. split.
  - exact Hnd.
  - intros j sj m Hj Hm Hid.
    apply in_app_or in Hm as [Hm | [<- | []]].
    + apply (Hown j sj m); assumption.
    + exfalso; apply Hfresh. rewrite Hid.
      change j with (fst (j, sj)). apply in_map; exact Hj.
  - intros m Hm Hb.
    apply in_app_or in Hm as [Hm | [<- | []]]; auto.
Qed.

Lemma cw_snoc_send l own i st :
  consistentWith l own ->
  ~ In i (map fst own) ->
  (forall m, In m l -> Message.id m = i ->
             Message.sender m = user /\ Message.status m = Some st) ->
  consistentWith l (own ++ [(i, st)]).
Proof.
  intros [Hnd Hown Hbot] Hfresh Hi. split.
  - rewrite map_app; simpl. apply NoDup_app.
    + exact Hnd.
    + constructor; [intros [] | constructor].
    + intros a Ha [<- | []]. contradiction.
  - intros j sj m Hj Hm Hid.
    apply in_app_or in Hj as [Hj | [Hj | []]].
    + apply (Hown j sj m); assumption.
    + inversion Hj; subst. apply Hi; auto.
  - exact Hbot.
Qed.

Lemma track_ids pool : map fst (map track pool) = map susp_id pool.
Proof. rewrite map_map; reflexivity. Qed.

Lemma resume_nth_spec env n pool u :
  resume_nth env n pool u = (u, pool)
  \/ exists l1 k l2,
      pool = l1 ++ k :: l2 /\ length l1 = n
      /\ resume_nth env n pool u
         = (fst (resume env k u),
            l1 ++ match snd (resume env k u) with
                  | Some k2 => k2 :: l2
                  | None => l2
                  end).
Proof.
  revert n; induction pool as [|k pool IH]; intros n.
  - left; destruct n; reflexivity.
  - destruct n as [|n].
    + right; exists [], k, pool. simpl.
      destruct (resume env k u); auto.
    + destruct (IH n) as [E | (l1 & k1 & l2 & -> & Hn & E)].
      * left; simpl; rewrite E; reflexivity.
      * right; exists (k :: l1), k1, l2. simpl. rewrite E, Hn. auto.
Qed.

Lemma consistent_ext s1 s2 :
  messages (ui s1) = messages (ui s2) -> pending s1 = pending s2 ->
  consistent s2 -> consistent s1.
Proof. unfold consistent; intros -> ->; auto. Qed.

Lemma consistent_doSend env s :
  fresh (uuid env) s -> consistent s -> consistent (doSend env s).
Proof.
  intros [Hm Hp] Hc.
  destruct (list_eq_dec N.eq_dec (trim (value (composer s))) []) as [E|E].
  - rewrite doSend_blank by exact E; exact Hc.
  - rewrite doSend_text by exact E. unfold consistent; simpl.
    rewrite map_app; simpl. unfold track at 2; simpl.
    apply cw_snoc_send.
    + apply cw_snoc_message; [exact Hc | | discriminate].
      rewrite track_ids; exact Hp.
    + rewrite track_ids; exact Hp.
    + intros m Hin Hid. apply in_app_or in Hin as [Hin | [<- | []]].
      * exfalso; apply Hm. rewrite <- Hid. apply in_map; exact Hin.
      * simpl; auto.
Qed.

Lemma consistent_resume env k l1 l2 u c :
  ~ In (uuid env) (map susp_id (l1 ++ k :: l2)) ->
  consistent (mkSys u c (l1 ++ k :: l2)) ->
  consistent
    (mkSys (fst (resume env k u)) c
       (l1 ++ match snd (resume env k u) with
              | Some k2 => k2 :: l2
              | None => l2
              end)).
Proof.
  unfold consistent; simpl. intros Hfresh Hc.
  rewrite resume_messages. rewrite map_app in Hc; simpl in Hc.
  destruct k as [i t th | i t th | i t th | i r]; simpl;
    rewrite map_app; simpl; unfold track in Hc |- *; simpl in Hc |- *.
  - apply cw_mark with (st := sending); exact Hc.
  - apply cw_mark with (st := sent); exact Hc.
  - exact Hc.
  - apply cw_snoc_message.
    + apply cw_drop with (p := (i, read)).
      apply cw_mark with (st := delivered); exact Hc.
    + simpl. rewrite <- map_app, track_ids.
      intros Hin; apply Hfresh.
      rewrite map_app in *; simpl.
      apply in_app_or in Hin as [Hin | Hin]; apply in_or_app; simpl; auto.
    + reflexivity.
Qed.

Lemma consistent_handle env ev s :
  fresh (uuid env) s -> consistent s -> consistent (handle env ev s).
Proof.
  intros Hf Hc. destruct ev as [v | b e | | | | | n | | | n]; simpl.
  - exact Hc.
  - apply consistent_ext with (s2 := if b then onKeyDown env e s else s).
    + simpl; apply onKey_frame.
    + reflexivity.
    + destruct b; [|exact Hc]. unfold onKeyDown.
      destruct (_ && _); [apply consistent_doSend; assumption | exact Hc].
  - apply consistent_doSend; assumption.
  - exact Hc.
  - exact Hc.
  - exact Hc.
  - destruct (nth_error demoThreads n); exact Hc.
  - unfold consistent; simpl. apply cw_nil, Hc.
  - unfold consistent; simpl. apply cw_snoc_message.
    + exact Hc.
    + rewrite track_ids; apply Hf.
    + discriminate.
  - destruct (resume_nth_spec env n (pending s) (ui s))
      as [E | (l1 & k & l2 & Hp & Hn & E)]; rewrite E.
    + exact Hc.
    + destruct s as [u c p]; simpl in *; subst p.
      apply consistent_resume; [apply Hf | exact Hc].
Qed.

Lemma consistent_exec env ev s :
  fresh (uuid env) s -> consistent s -> consistent (exec env ev s).
Proof.
  intros Hf Hc.
  apply consistent_ext with (s2 := handle env ev s).
  - apply exec_messages.
  - reflexivity.
  - apply consistent_handle; assumption.
Qed.

Lemma consistent_initial clock : consistent (initial clock).
Proof.
  unfold consistent; simpl. split.
  - constructor.
  - intros ? ? ? [].
  - intros m [<- | [<- | [<- | []]]]; simpl; congruence.
Qed.

(** Every reachable state is consistent. *)
Lemma reachable_consistent s : reachable s -> consistent s.
Proof.
  induction 1 as [clock | s ev s' _ IH (env & Hf & ->)].
  - apply consistent_initial.
  - apply consistent_exec; assumption.
Qed.

(* ----------------------------------------------------------------- *)
(** *** Bot messages and statuses *)

(** C9: in every reachable state (the initial demo messages, and after
    any sequence of sends, timer segments, attach-demo clicks, clears
    and the other events) a message whose sender is bot has no delivery
    status; a message that carries a status is a user message. *)
Theorem bot_messages_carry_no_status (s : Sys) :
  reachable s ->
  forall m, In m (messages (ui s)) ->
    (Message.sender m = bot -> Message.status m = None)
    /\ (Message.status m <> None -> Message.sender m = user).
Proof.
  intros Hr m Hm. apply reachable_consistent in Hr.
  destruct Hr as [_ _ Hbot]. split.
  - apply Hbot; exact Hm.
  - intros Hst. destruct (Message.sender m) eqn:E; [reflexivity|].
    exfalso; apply Hst, Hbot; assumption.
Qed.

(* ----------------------------------------------------------------- *)
(** *** Status transitions *)

Lemma advances_le a b : advances a b -> status_le a b.
Proof.
  intros [<- | (x & y & -> & -> & H)]; simpl.
  - destruct a; simpl; auto.
  - lia.
Qed.

Lemma marker_advances l i st0 st :
  (forall m, In m l -> Message.id m = i -> Message.status m = Some st0) ->
  rank st = S (rank st0) ->
  forall m, In m l ->
    unmarked (marker i st m) = unmarked m
    /\ advances (Message.status m) (Message.status (marker i st m)).
Proof.
  intros Hown Hr m Hm. unfold marker.
  destruct (JS.eqb (Message.id m) i) eqn:E.
  - apply eqb_eq in E. split; [reflexivity|].
    right; exists st0, st. rewrite (Hown m Hm E). auto.
  - split; [reflexivity | left; reflexivity].
Qed.

(** One event either empties the message list, or rewrites each
    message in place, advancing its status by at most one position, and
    possibly appends new ones. *)
Lemma handle_messages_shape env ev s :
  consistent s ->
  messages (ui (handle env ev s)) = []
  \/ exists f extra,
      messages (ui (handle env ev s)) = map f (messages (ui s)) ++ extra
      /\ forall m, In m (messages (ui s)) ->
           unmarked (f m) = unmarked m
           /\ advances (Message.status m) (Message.status (f m)).
Proof.
  intros Hc.
  assert (Hsame : forall l extra,
             exists f extra',
               l ++ extra = map f l ++ extra'
               /\ forall m, In m l ->
                    unmarked (f m) = unmarked m
                    /\ advances (Message.status m) (Message.status (f m))).
  { intros l extra. exists (fun m => m), extra.
    rewrite map_id. split; [reflexivity|].
    intros m _; split; [reflexivity | left; reflexivity]. }
  assert (Hkeep : forall l, exists f extra,
             l = map f l ++ extra
             /\ forall m, In m l ->
                  unmarked (f m) = unmarked m
                  /\ advances (Message.status m) (Message.status (f m))).
  { intros l. destruct (Hsame l []) as (f & ex & H1 & H2).
    rewrite app_nil_r in H1. eauto. }
  assert (Hsend : forall e0,
             exists f extra,
               messages (ui (doSend e0 s)) = map f (messages (ui s)) ++ extra
               /\ forall m, In m (messages (ui s)) ->
                    unmarked (f m) = unmarked m
                    /\ advances (Message.status m) (Message.status (f m))).
  { intros e0.
    destruct (list_eq_dec N.eq_dec (trim (value (composer s))) []) as [E|E].
    - rewrite doSend_blank by exact E. apply Hkeep.
    - rewrite doSend_text by exact E. simpl. apply Hsame. }
  destruct ev as [v | b e | | | | | n | | | n]; simpl;
    try (right; apply Hkeep).
  - right. destruct (onKey_frame e (ui (if b then onKeyDown env e s else s)))
      as (-> & _).
    destruct b; [|apply Hkeep].
    unfold onKeyDown; destruct (_ && _); [apply Hsend | apply Hkeep].
  - right; apply Hsend.
  - right. destruct (nth_error demoThreads n); apply Hkeep.
  - left; reflexivity.
  - right. apply Hsame.
  - right.
    destruct (resume_nth_spec env n (pending s) (ui s))
      as [E | (l1 & k & l2 & Hp & Hn & E)]; rewrite E; simpl.
    + apply Hkeep.
    + rewrite resume_messages.
      assert (Hown : forall m, In m (messages (ui s)) ->
                Message.id m = susp_id k ->
                Message.status m = Some (written k)).
      { intros m Hm Hid.
        destruct Hc as [_ Hown _].
        apply (Hown (susp_id k) (written k) m); [|exact Hm | exact Hid].
        rewrite Hp. apply (in_map track). apply in_elt. }
      destruct k as [i t th | i t th | i t th | i r]; simpl in Hown.
      * exists (marker i sent), []. rewrite app_nil_r.
        split; [reflexivity|].
        apply marker_advances with (st0 := sending); auto.
      * exists (marker i delivered), []. rewrite app_nil_r.
        split; [reflexivity|].
        apply marker_advances with (st0 := sent); auto.
      * apply Hkeep.
      * exists (marker i read),
          [Message.mk (uuid env) bot r (now env) None None].
        split; [reflexivity|].
        apply marker_advances with (st0 := delivered); auto.
Qed.

(** C3: along any step from a reachable state, a message that is still
    in the list keeps its identity (id, sender, text, time,
    attachments) and its status either stays or moves to the next one
    in the sequence sending, sent, delivered, read; it never moves
    backwards. *)
Theorem status_only_advances (s : Sys) (ev : Event) (s' : Sys) :
  reachable s -> step s ev s' ->
  forall n m m',
    nth_error (messages (ui s)) n = Some m ->
    nth_error (messages (ui s')) n = Some m' ->
    unmarked m' = unmarked m
    /\ advances (Message.status m) (Message.status m')
    /\ status_le (Message.status m) (Message.status m').
Proof.
  intros Hr (env & _ & ->) n m m' Hn Hn'.
  apply reachable_consistent in Hr.
  rewrite exec_messages in Hn'.
  destruct (handle_messages_shape env ev s Hr) as [E | (f & extra & E & Hf)].
  - rewrite E, nth_error_nil in Hn'; discriminate.
  - rewrite E in Hn'.
    rewrite nth_error_app1 in Hn'
      by (rewrite length_map; apply nth_error_Some; congruence).
    rewrite nth_error_map, Hn in Hn'. simpl in Hn'.
    injection Hn' as <-.
    destruct (Hf m (nth_error_In _ _ Hn)) as [Hu Ha].
    auto using advances_le.
Qed.

(* ----------------------------------------------------------------- *)
(** *** Determinism *)

Lemma agree_refl u : agree u u.
Proof. unfold agree; auto. Qed.

Lemma agree_rerender c1 c2 u1 u2 :
  agree u1 u2 -> agree (rerender c1 u1) (rerender c2 u2).
Proof.
  unfold agree.
  destruct (rerender_hooks c1 u1) as (-> & -> & -> & -> & ->).
  destruct (rerender_hooks c2 u2) as (-> & -> & -> & -> & ->). auto.
Qed.

Lemma resume_agree env1 env2 k u :
  agree (fst (resume env1 k u)) (fst (resume env2 k u))
  /\ (snd (resume env1 k u) = None <-> snd (resume env2 k u) = None).
Proof.
  destruct k; simpl; split; try apply agree_refl; try tauto.
  unfold agree; simpl. rewrite !map_app. auto.
Qed.

Lemma resume_nth_agree env1 env2 n pool u :
  agree (fst (resume_nth env1 n pool u)) (fst (resume_nth env2 n pool u))
  /\ length (snd (resume_nth env1 n pool u))
     = length (snd (resume_nth env2 n pool u)).
Proof.
  revert n; induction pool as [|k pool IH]; intros n.
  - destruct n; simpl; auto using agree_refl.
  - destruct n as [|n]; simpl.
    + destruct (resume_agree env1 env2 k u) as [Ha Hk].
      destruct (resume env1 k u) as [u1 [k1|]],
               (resume env2 k u) as [u2 [k2|]]; simpl in *;
        split; auto.
      * destruct Hk as [_ Hk]. discriminate (Hk eq_refl).
      * destruct Hk as [Hk _]. discriminate (Hk eq_refl).
    + specialize (IH n).
      destruct (resume_nth env1 n pool u), (resume_nth env2 n pool u).
      simpl in *. destruct IH; auto.
Qed.

Lemma doSend_agree env1 env2 s :
  agree (ui (doSend env1 s)) (ui (doSend env2 s))
  /\ composer (doSend env1 s) = composer (doSend env2 s)
  /\ length (pending (doSend env1 s)) = length (pending (doSend env2 s)).
Proof.
  destruct (list_eq_dec N.eq_dec (trim (value (composer s))) []) as [E|E].
  - rewrite !doSend_blank by exact E. auto using agree_refl.
  - rewrite !doSend_text by exact E. simpl.
    rewrite !length_app. repeat split; simpl.
    rewrite !map_app. reflexivity.
Qed.

Lemma handle_agree env1 env2 ev s :
  agree (ui (handle env1 ev s)) (ui (handle env2 ev s))
  /\ composer (handle env1 ev s) = composer (handle env2 ev s)
  /\ length (pending (handle env1 ev s))
     = length (pending (handle env2 ev s)).
Proof.
  assert (Hsame : forall (u : State) (c : Composer) (p : list Suspended),
             agree u u /\ c = c /\ length p = length p)
    by (auto using agree_refl).
  destruct ev as [v | b e | | | | | n | | | n]; simpl; try apply Hsame.
  - destruct b; simpl; [|apply Hsame].
    unfold onKeyDown. destruct (_ && _); [|apply Hsame].
    destruct (doSend_agree env1 env2 s) as ((H1 & H2 & H3 & H4 & H5) & Hc & Hp).
    repeat split; auto.
    + rewrite !onKey_theme, H1; reflexivity.
    + destruct (onKey_frame e (ui (doSend env1 s))) as (-> & _).
      destruct (onKey_frame e (ui (doSend env2 s))) as (-> & _). exact H2.
    + destruct (onKey_frame e (ui (doSend env1 s))) as (_ & -> & _).
      destruct (onKey_frame e (ui (doSend env2 s))) as (_ & -> & _). exact H3.
    + destruct (onKey_frame e (ui (doSend env1 s))) as (_ & _ & -> & _).
      destruct (onKey_frame e (ui (doSend env2 s))) as (_ & _ & -> & _).
      exact H4.
    + destruct (onKey_frame e (ui (doSend env1 s))) as (_ & _ & _ & ->).
      destruct (onKey_frame e (ui (doSend env2 s))) as (_ & _ & _ & ->).
      exact H5.
  - apply doSend_agree.
  - repeat split. simpl. rewrite !map_app. reflexivity.
  - pose proof (resume_nth_agree env1 env2 n (pending s) (ui s)) as H.
    destruct (resume_nth env1 n (pending s) (ui s)),
             (resume_nth env2 n (pending s) (ui s)).
    simpl in *. destruct H; auto.
Qed.

(** C7, as the code has it: an event is a function of the starting
    state, the user input and what the handler reads from the browser
    (the identifier from [crypto.randomUUID()] and the clock).  Two runs
    that read the same values end in the same state; two runs that read
    different values still agree on the theme, the typing flag, the
    active thread, the settings visibility, the composer, the number of
    sends in flight, and on the sender, text, status and attachments of
    every message: they can differ only in generated ids and times. *)
Theorem exec_deterministic_up_to_environment
  (ev : Event) (s : Sys) (env1 env2 : Env) :
  (uuid env1 = uuid env2 -> now env1 = now env2 ->
   renderNow env1 = renderNow env2 ->
   exec env1 ev s = exec env2 ev s)
  /\ theme (ui (exec env1 ev s)) = theme (ui (exec env2 ev s))
  /\ map content (messages (ui (exec env1 ev s)))
     = map content (messages (ui (exec env2 ev s)))
  /\ typing (ui (exec env1 ev s)) = typing (ui (exec env2 ev s))
  /\ activeThread (ui (exec env1 ev s)) = activeThread (ui (exec env2 ev s))
  /\ showSettings (ui (exec env1 ev s)) = showSettings (ui (exec env2 ev s))
  /\ composer (exec env1 ev s) = composer (exec env2 ev s)
  /\ length (pending (exec env1 ev s)) = length (pending (exec env2 ev s)).
Proof.
  split.
  - destruct env1, env2; simpl; intros -> -> ->; reflexivity.
  - destruct (handle_agree env1 env2 ev s) as (Ha & Hc & Hp).
    apply (agree_rerender (renderNow env1) (renderNow env2)) in Ha.
    destruct Ha as (H1 & H2 & H3 & H4 & H5).
    repeat split; assumption.
Qed.

End Properties.

(* ================================================================= *)
(** ** The model at concrete inputs *)

Ltac solve_fresh := split; vm_compute; intuition discriminate.

Lemma demo_typed_reachable v : reachable (B := asciiBuiltins) (Demo.typed v).
Proof.
  apply reach_step with (s := Demo.start) (ev := Input v).
  - apply reach_init.
  - exists (Demo.env "id-0" "10:04"). split; [solve_fresh | reflexivity].
Defined.

Lemma demo_sentOnce_step v :
  step (B := asciiBuiltins) (Demo.typed v) ClickSend (Demo.sentOnce v).
Proof.
  exists (Demo.env "id-1" "10:05"). split; [solve_fresh | reflexivity].
Defined.

Example demo_slash_help :
  map Message.text (messages (ui (Demo.chain (Demo.typed (lit "  /Help ")))))
  = map Message.text introMessages ++ [lit "/Help"; replyHelp].
Proof. vm_compute. reflexivity. Qed.

Example demo_statuses :
  map Message.status (messages (ui (Demo.chain (Demo.typed (lit "hi")))))
  = [None; Some read; None; Some read; None].
Proof. vm_compute. reflexivity. Qed.

Example demo_rows :
  rows (handleChange (lit "a" ++ [10; 10; 10; 10; 10; 10; 10]%N)) = 6
  /\ rows (handleChange []) = 1.
Proof. split; reflexivity. Qed.

Lemma demo_sentOnce_reachable v :
  reachable (B := asciiBuiltins) (Demo.sentOnce v).
Proof.
  apply reach_step with (s := Demo.typed v) (ev := ClickSend).
  - apply demo_typed_reachable.
  - apply demo_sentOnce_step.
Defined.

Lemma send_appends_user_message_then_bot_reply_witness :
  trim (value (composer (Demo.typed (lit " hello ")))) <> []
  /\ fresh (lit "id-1") (Demo.typed (lit " hello "))
  /\ messages (ui (Demo.chain (Demo.typed (lit " hello "))))
     = introMessages
         ++ [Message.mk (lit "id-1") user (lit "hello") (lit "10:00")
               (Some read) None;
             Message.mk (lit "id-5") bot replyDefault (lit "10:06")
               None None].
Proof.
  assert (Htext : trim (value (composer (Demo.typed (lit " hello ")))) <> [])
    by (vm_compute; discriminate).
  assert (Hfresh : fresh (lit "id-1") (Demo.typed (lit " hello ")))
    by solve_fresh.
  split; [exact Htext | split; [exact Hfresh|]].
  destruct (send_appends_user_message_then_bot_reply (B := asciiBuiltins)
              (Demo.env "id-1" "10:05") (Demo.env "id-2" "10:05")
              (Demo.env "id-3" "10:05") (Demo.env "id-4" "10:05")
              (Demo.env "id-5" "10:06") (Demo.typed (lit " hello "))
              Htext)
    as (_ & _ & _ & _ & _ & _ & H5 & _).
  exact (H5 Hfresh).
Defined.

Lemma blank_send_adds_no_message_witness :
  forallb isWhiteSpace
    (value (composer (Demo.typed [32; 9; 10; 160; 32]%N))) = true
  /\ messages
       (ui (exec (B := asciiBuiltins) (Demo.env "id-1" "10:05") ClickSend
              (Demo.typed [32; 9; 10; 160; 32]%N)))
     = introMessages.
Proof.
  split; [reflexivity|].
  destruct (blank_send_adds_no_message (B := asciiBuiltins)
              (Demo.env "id-1" "10:05") (Demo.typed [32; 9; 10; 160; 32]%N)
              (mkKey (lit "Enter") false false false) eq_refl)
    as (H & _).
  exact H.
Defined.

Lemma composer_resets_and_rows_clamped_witness :
  trim (value (composer (Demo.typed (lit "hello")))) <> []
  /\ composer (Demo.sentOnce (lit "hello")) = mkComposer [] 1.
Proof.
  assert (Htext : trim (value (composer (Demo.typed (lit "hello")))) <> [])
    by (vm_compute; discriminate).
  split; [exact Htext|].
  destruct (composer_resets_and_rows_clamped (B := asciiBuiltins)
              (Demo.env "id-1" "10:05") (Demo.typed (lit "hello")) Htext)
    as (H & _).
  exact H.
Defined.

Lemma status_only_advances_witness :
  reachable (B := asciiBuiltins) (Demo.sentOnce (lit "hello"))
  /\ step (B := asciiBuiltins) (Demo.sentOnce (lit "hello")) (TimerFires 0)
       (exec (B := asciiBuiltins) (Demo.env "id-2" "10:05") (TimerFires 0)
          (Demo.sentOnce (lit "hello")))
  /\ option_map Message.status
       (nth_error (messages (ui (Demo.sentOnce (lit "hello")))) 3)
     = Some (Some sending)
  /\ option_map Message.status
       (nth_error
          (messages
             (ui (exec (B := asciiBuiltins) (Demo.env "id-2" "10:05")
                    (TimerFires 0) (Demo.sentOnce (lit "hello"))))) 3)
     = Some (Some sent)
  /\ advances (Some sending) (Some sent).
Proof.
  assert (Hr := demo_sentOnce_reachable (lit "hello")).
  assert (Hs : step (B := asciiBuiltins) (Demo.sentOnce (lit "hello"))
                 (TimerFires 0)
                 (exec (B := asciiBuiltins) (Demo.env "id-2" "10:05")
                    (TimerFires 0) (Demo.sentOnce (lit "hello")))).
  { exists (Demo.env "id-2" "10:05"). split; [solve_fresh | reflexivity]. }
  split; [exact Hr | split; [exact Hs|]].
  split; [reflexivity | split; [reflexivity|]].
  destruct (status_only_advances (B := asciiBuiltins) _ _ _ Hr Hs 3
              (Message.mk (lit "id-1") user (lit "hello") (lit "10:00")
                 (Some sending) None)
              (Message.mk (lit "id-1") user (lit "hello") (lit "10:00")
                 (Some sent) None)
              eq_refl eq_refl) as (_ & H & _).
  exact H.
Defined.

Lemma bot_messages_carry_no_status_witness :
  reachable (B := asciiBuiltins) (Demo.sentOnce (lit "hello"))
  /\ In Demo.m3 (messages (ui (Demo.sentOnce (lit "hello"))))
  /\ Message.sender Demo.m3 = bot
  /\ Message.status Demo.m3 = None.
Proof.
  assert (Hr := demo_sentOnce_reachable (lit "hello")).
  assert (Hm : In Demo.m3 (messages (ui (Demo.sentOnce (lit "hello")))))
    by (right; right; left; reflexivity).
  split; [exact Hr | split; [exact Hm | split; [reflexivity|]]].
  destruct (bot_messages_carry_no_status (B := asciiBuiltins) _ Hr Demo.m3 Hm)
    as (H & _).
  apply H. reflexivity.
Defined.

Lemma slash_command_reply_witness :
  trim (value (composer (Demo.typed (lit "/THEME ")))) <> []
  /\ exists l b,
       messages (ui (Demo.chain (Demo.typed (lit "/THEME ")))) = l ++ [b]
       /\ Message.text b = replyTheme dark.
Proof.
  assert (Htext : trim (value (composer (Demo.typed (lit "/THEME ")))) <> [])
    by (vm_compute; discriminate).
  split; [exact Htext|].
  destruct (slash_command_reply (B := asciiBuiltins)
              (Demo.env "id-1" "10:05") (Demo.env "id-2" "10:05")
              (Demo.env "id-3" "10:05") (Demo.env "id-4" "10:05")
              (Demo.env "id-5" "10:06") (Demo.typed (lit "/THEME ")) Htext)
    as (l & b & Hl & _ & _ & _ & Ht & _).
  exists l, b. split; [exact Hl|].
  apply Ht; reflexivity.
Defined.

(* ----------------------------------------------------------------- *)
(** *** Where the code departs from the specification *)

(** C7 as stated fails: from one and the same reachable state, with the
    same text in the composer, two clicks on Send end in different
    message lists, because the new message carries the identifier
    [crypto.randomUUID()] returned. *)
Lemma send_outcome_varies_with_generated_id :
  ~ (forall s ev s1 s2,
        reachable (B := asciiBuiltins) s ->
        step (B := asciiBuiltins) s ev s1 ->
        step (B := asciiBuiltins) s ev s2 ->
        hooks s1 = hooks s2).
Proof.
  intros H.
  specialize (H (Demo.typed (lit "hello")) ClickSend
                (exec (B := asciiBuiltins) (Demo.env "id-1" "10:05") ClickSend
                   (Demo.typed (lit "hello")))
                (exec (B := asciiBuiltins) (Demo.env "id-2" "10:05") ClickSend
                   (Demo.typed (lit "hello")))
                (demo_typed_reachable (lit "hello"))).
  assert (H1 : step (B := asciiBuiltins) (Demo.typed (lit "hello")) ClickSend
                 (exec (B := asciiBuiltins) (Demo.env "id-1" "10:05") ClickSend
                    (Demo.typed (lit "hello")))).
  { exists (Demo.env "id-1" "10:05"). split; [solve_fresh | reflexivity]. }
  assert (H2 : step (B := asciiBuiltins) (Demo.typed (lit "hello")) ClickSend
                 (exec (B := asciiBuiltins) (Demo.env "id-2" "10:05") ClickSend
                    (Demo.typed (lit "hello")))).
  { exists (Demo.env "id-2" "10:05"). split; [solve_fresh | reflexivity]. }
  specialize (H H1 H2). vm_compute in H. discriminate H.
Qed.

(** C8 as stated fails for the theme command: its reply is not one
    fixed string.  The same text "/theme", sent from two reachable
    states that differ in their theme, gets two different replies. *)
Lemma theme_reply_is_not_a_fixed_string :
  ~ (exists fixed : jsstring,
        forall s, reachable (B := asciiBuiltins) s ->
                  trim (value (composer s)) = lit "/theme" ->
                  exists l b,
                    messages (ui (Demo.chain s)) = l ++ [b]
                    /\ Message.text b = fixed).
Proof.
  intros (fixed & H).
  assert (Hl : reachable (B := asciiBuiltins)
                 (Demo.typedLight (lit "/theme"))).
  { apply reach_step with (s := Demo.typed (lit "/theme"))
                          (ev := ClickToggleTheme).
    - apply demo_typed_reachable.
    - exists (Demo.env "id-0" "10:04"). split; [solve_fresh | reflexivity]. }
  destruct (H _ (demo_typed_reachable (lit "/theme")) eq_refl)
    as (l1 & b1 & E1 & T1).
  destruct (H _ Hl eq_refl) as (l2 & b2 & E2 & T2).
  vm_compute in E1, E2.
  match type of E1 with ?a :: ?b :: ?c :: ?d :: ?e :: nil = _ =>
    change (a :: b :: c :: d :: e :: nil) with ([a; b; c; d] ++ [e]) in E1
  end.
  match type of E2 with ?a :: ?b :: ?c :: ?d :: ?e :: nil = _ =>
    change (a :: b :: c :: d :: e :: nil) with ([a; b; c; d] ++ [e]) in E2
  end.
  apply app_inj_tail in E1 as [_ <-]. apply app_inj_tail in E2 as [_ <-].
  simpl in T1, T2. rewrite <- T1 in T2. discriminate T2.
Qed.

(* ================================================================= *)
(** ** Further properties of the component *)

Lemma trimStart_fixed (s : jsstring) :
  trimStart (trimStart s) = trimStart s.
Proof.
  induction s as [|c s IH]; simpl; [reflexivity|].
  destruct (isWhiteSpace c) eqn:E; [exact IH | simpl; rewrite E; reflexivity].
Qed.

Lemma trimStart_keeps_last (l : jsstring) (c : N) :
  isWhiteSpace c = false -> exists w, trimStart (l ++ [c]) = w ++ [c].
Proof.
  intros Hc; induction l as [|x l IH]; simpl.
  - rewrite Hc; exists []; reflexivity.
  - destruct (isWhiteSpace x); [exact IH | exists (x :: l); reflexivity].
Qed.

(** Trimming a trimmed string changes nothing. *)
Lemma trim_trim (v : jsstring) : trim (trim v) = trim v.
Proof.
  unfold trim, trimEnd.
  destruct (trimStart v) as [|c r] eqn:E; [reflexivity|].
  apply trimStart_head in E as Hc.
  destruct (trimStart_keeps_last (rev r) c Hc) as (w & Hw).
  assert (HX : trimStart (rev (c :: r)) = w ++ [c]) by (simpl; exact Hw).
  rewrite HX, rev_app_distr. simpl. rewrite Hc. simpl.
  rewrite rev_involutive, <- HX, trimStart_fixed, HX, rev_app_distr.
  reflexivity.
Qed.

Lemma mark_ids i st l : map Message.id (mark i st l) = map Message.id l.
Proof.
  unfold mark; rewrite map_map; apply map_ext; intros m.
  unfold marker; destruct (JS.eqb (Message.id m) i); reflexivity.
Qed.

Section Coverage.

Context {B : Builtins}.

Lemma doSend_effect env s :
  effect env s (messages (ui (doSend env s))) (typing (ui (doSend env s)))
    (pending (doSend env s)).
Proof.
  destruct (list_eq_dec N.eq_dec (trim (value (composer s))) []) as [E|E].
  - rewrite doSend_blank by exact E. constructor.
  - rewrite doSend_text by exact E. simpl. apply eff_send; exact E.
Qed.

Lemma handle_effect env ev s :
  effect env s (messages (ui (handle env ev s)))
    (typing (ui (handle env ev s))) (pending (handle env ev s)).
Proof.
  destruct ev as [v | b e | | | | | n | | | n]; simpl;
    try apply eff_same.
  - destruct (onKey_frame e (ui (if b then onKeyDown env e s else s)))
      as (-> & -> & _).
    destruct b; [|apply eff_same].
    unfold onKeyDown; destruct (_ && _);
      [apply doSend_effect | apply eff_same].
  - apply doSend_effect.
  - destruct (nth_error demoThreads n); simpl; apply eff_same.
  - apply eff_clear.
  - apply eff_attach.
  - destruct (resume_nth_spec env n (pending s) (ui s))
      as [E | (l1 & k & l2 & Hp & Hn & E)]; rewrite E; simpl.
    + apply eff_same.
    + apply eff_timer; exact Hp.
Qed.

Lemma exec_effect env ev s :
  effect env s (messages (ui (exec env ev s)))
    (typing (ui (exec env ev s))) (pending (exec env ev s)).
Proof.
  destruct (exec_fields env ev s) as (_ & -> & -> & _).
  apply handle_effect.
Qed.

(** A property of single messages that every created message has and
    that status rewrites keep holds of all messages of a reachable
    state. *)
Lemma reachable_Forall (P : Message.t -> Prop) :
  (forall i st m, P m -> P (marker i st m)) ->
  Forall P introMessages ->
  (forall env, P (attachDemo env)) ->
  (forall i text t, text <> [] -> trim text = text ->
                    P (Message.mk i user text t (Some sending) None)) ->
  (forall i r t, P (Message.mk i bot r t None None)) ->
  forall s, reachable s -> Forall P (messages (ui s)).
Proof.
  intros Hmark Hintro Hatt Hsend Hbot s Hr.
  induction Hr as [clock | s ev s' _ IH (env & _ & ->)]; [exact Hintro|].
  assert (Hm : forall i st l, Forall P l -> Forall P (mark i st l)).
  { intros i st l Hl. unfold mark. apply Forall_map.
    revert Hl; apply Forall_impl; intros m; apply Hmark. }
  destruct (exec_effect env ev s) as [ | | Htext | | l1 k l2 Hp].
  - exact IH.
  - constructor.
  - apply Forall_app; split; [exact IH|].
    constructor; [|constructor].
    apply Hsend; [exact Htext | apply trim_trim].
  - apply Forall_app; split; [exact IH|].
    constructor; [apply Hatt | constructor].
  - rewrite resume_messages. destruct k; auto.
    apply Forall_app; split; [auto|].
    constructor; [apply Hbot | constructor].
Qed.

(* ----------------------------------------------------------------- *)
(** *** Ticks, texts and keys of the rendered messages *)

Lemma reachable_user_status s :
  reachable s ->
  Forall (fun m => Message.sender m = user -> Message.status m <> None)
    (messages (ui s)).
Proof.
  apply reachable_Forall.
  - intros i st m Hm. unfold marker.
    destruct (JS.eqb (Message.id m) i); [simpl; discriminate | exact Hm].
  - unfold introMessages.
    repeat (apply Forall_cons; [simpl; discriminate|]). apply Forall_nil.
  - intros env; simpl; discriminate.
  - intros; simpl; discriminate.
  - intros; simpl; discriminate.
Qed.

(** X1: in every reachable state the bubble of a user message shows a
    status tick, the one of its status, and the user avatar after the
    text; the bubble of a bot message shows no tick and the bot avatar
    before the text.  Different statuses have different ticks. *)
Theorem bubble_tick_exactly_on_user_messages (s : Sys) :
  reachable s ->
  forall m, In m (messages (ui s)) ->
    (Message.sender m = user ->
     exists st, Message.status m = Some st
                /\ tick (Bubble m) = statusTick (Some st)
                /\ tick (Bubble m) <> None
                /\ avatarBefore (Bubble m) = None
                /\ avatarAfter (Bubble m) = Some User)
    /\ (Message.sender m = bot ->
        tick (Bubble m) = None
        /\ avatarBefore (Bubble m) = Some Bot
        /\ avatarAfter (Bubble m) = None)
    /\ (forall a b, statusTick (Some a) = statusTick (Some b) -> a = b).
Proof.
  intros Hr m Hm.
  pose proof (reachable_user_status s Hr) as Hall.
  rewrite Forall_forall in Hall. specialize (Hall m Hm).
  split; [|split].
  - intros Hu. specialize (Hall Hu).
    destruct (Message.status m) as [st|] eqn:E; [|congruence].
    exists st. unfold Bubble; rewrite Hu, E; simpl.
    repeat split; auto. destruct st; discriminate.
  - intros Hb. unfold Bubble; rewrite Hb; simpl; auto.
  - intros [] []; simpl; congruence.
Qed.

(** X10: in every reachable state the text of a user message is
    non-empty and carries no whitespace at either end: trimming it gives
    it back. *)
Theorem user_message_text_is_trimmed (s : Sys) :
  reachable s ->
  forall m, In m (messages (ui s)) ->
    Message.sender m = user ->
    Message.text m <> [] /\ trim (Message.text m) = Message.text m.
Proof.
  intros Hr.
  assert (H : Forall trimmedText (messages (ui s))).
  { revert s Hr. apply reachable_Forall.
    - intros i st m Hm. unfold marker.
      destruct (JS.eqb (Message.id m) i); exact Hm.
    - unfold introMessages.
      apply Forall_cons; [intros Hs; discriminate Hs|].
      apply Forall_cons; [intros _; split; [discriminate | reflexivity]|].
      apply Forall_cons; [intros Hs; discriminate Hs | apply Forall_nil].
    - intros env _. split; [discriminate | reflexivity].
    - intros i text t Hne Htrim _. simpl. auto.
    - intros i r t Hs; discriminate Hs. }
  rewrite Forall_forall in H. exact H.
Qed.

Lemma effect_ids env s l t p :
  effect env s l t p ->
  ~ In (uuid env) (map Message.id (messages (ui s))) ->
  NoDup (map Message.id (messages (ui s))) ->
  NoDup (map Message.id l).
Proof.
  assert (Hsnoc : forall (ids : list jsstring) i,
             NoDup ids -> ~ In i ids -> NoDup (ids ++ [i])).
  { intros ids i Hn Hi. apply NoDup_app; auto.
    - constructor; [intros [] | constructor].
    - intros a Ha [<- | []]; contradiction. }
  intros [ | | Htext | | l1 k l2 Hp] Hf Hn.
  - exact Hn.
  - constructor.
  - rewrite map_app; simpl. apply Hsnoc; assumption.
  - rewrite map_app; simpl. apply Hsnoc; assumption.
  - rewrite resume_messages.
    destruct k; rewrite ?map_app, ?mark_ids; simpl; auto.
Qed.

(** X2: in every reachable state the message ids, which are the React
    keys of the bubbles, are pairwise distinct, and so are the ids of
    the sends in flight. *)
Theorem message_ids_are_distinct (s : Sys) :
  reachable s ->
  NoDup (map Message.id (messages (ui s)))
  /\ NoDup (map susp_id (pending s)).
Proof.
  intros Hr. split.
  - induction Hr as [clock | s ev s' _ IH (env & [Hf _] & ->)].
    + simpl. repeat constructor; simpl; intuition discriminate.
    + apply (effect_ids env s _ _ _ (exec_effect env ev s)); assumption.
  - apply reachable_consistent in Hr. destruct Hr as [Hn _ _].
    rewrite track_ids in Hn. exact Hn.
Qed.

(* ----------------------------------------------------------------- *)
(** *** Statuses and the typing indicator against the pool *)

Lemma settled_mark i st st' l l1 l2 k k2 :
  track k = (i, st) -> track k2 = (i, st') ->
  settled l (l1 ++ k :: l2) ->
  settled (mark i st' l) (l1 ++ k2 :: l2).
Proof.
  intros Hk Hk2 Hs m' x Hm' Hst Hx.
  unfold mark in Hm'. apply in_map_iff in Hm' as (m & <- & Hm).
  unfold marker in *. destruct (JS.eqb (Message.id m) i) eqn:E.
  - apply eqb_eq in E. simpl in Hst |- *. injection Hst as <-.
    rewrite E, map_app; simpl. rewrite Hk2.
    apply in_or_app; right; left; reflexivity.
  - apply eqb_neq in E. specialize (Hs m x Hm Hst Hx).
    rewrite map_app in *; simpl in *. rewrite Hk in Hs.
    apply in_app_or in Hs as [Hs | [Hs | Hs]].
    + apply in_or_app; auto.
    + inversion Hs; congruence.
    + apply in_or_app; right; right; exact Hs.
Qed.

Lemma effect_settled env s l t p :
  effect env s l t p ->
  settled (messages (ui s)) (pending s) -> settled l p.
Proof.
  intros [ | | Htext | | l1 k l2 Hp] Hs.
  - exact Hs.
  - intros m st [].
  - intros m st Hm Hst Hx. rewrite map_app.
    apply in_app_or in Hm as [Hm | [<- | []]].
    + apply in_or_app; left; eauto.
    + simpl in Hst; injection Hst as <-.
      apply in_or_app; right; left; reflexivity.
  - intros m st Hm Hst Hx.
    apply in_app_or in Hm as [Hm | [<- | []]]; [eauto|].
    simpl in Hst; injection Hst as <-. congruence.
  - rewrite Hp in Hs. rewrite resume_messages.
    destruct k as [i x th | i x th | i x th | i r]; simpl.
    + eapply settled_mark; [| |exact Hs]; reflexivity.
    + eapply settled_mark; [| |exact Hs]; reflexivity.
    + unfold settled in *. rewrite map_app in *. exact Hs.
    + intros m st Hm Hst Hx.
      apply in_app_or in Hm as [Hm | [<- | []]]; [|discriminate Hst].
      unfold mark in Hm. apply in_map_iff in Hm as (m0 & <- & Hm).
      unfold marker in *. destruct (JS.eqb (Message.id m0) i) eqn:E.
      * simpl in Hst. injection Hst as <-. congruence.
      * apply eqb_neq in E. specialize (Hs m0 st Hm Hst Hx).
        rewrite map_app in *; simpl in *.
        apply in_app_or in Hs as [Hs | [Hs | Hs]].
        -- apply in_or_app; auto.
        -- inversion Hs; congruence.
        -- apply in_or_app; auto.
Qed.

Lemma reachable_settled s :
  reachable s -> settled (messages (ui s)) (pending s).
Proof.
  induction 1 as [clock | s ev s' _ IH (env & _ & ->)].
  - intros m st [<- | [<- | [<- | []]]]; simpl; congruence.
  - apply (effect_settled env s _ _ _ (exec_effect env ev s)); exact IH.
Qed.

(** X3: in every reachable state a message whose status is sending,
    sent or delivered belongs to a send in flight that last wrote
    exactly that status; so once no send is in flight, every user
    message is read. *)
Theorem unread_messages_belong_to_sends_in_flight (s : Sys) :
  reachable s ->
  (forall m st,
      In m (messages (ui s)) -> Message.status m = Some st -> st <> read ->
      exists k, In k (pending s)
                /\ susp_id k = Message.id m /\ written k = st)
  /\ (pending s = [] ->
      forall m, In m (messages (ui s)) -> Message.sender m = user ->
                Message.status m = Some read).
Proof.
  intros Hr. pose proof (reachable_settled s Hr) as Hs. split.
  - intros m st Hm Hst Hx. specialize (Hs m st Hm Hst Hx).
    apply in_map_iff in Hs as (k & Hk & Hin).
    exists k. inversion Hk; auto.
  - intros Hp m Hm Hu.
    pose proof (reachable_user_status s Hr) as Hall.
    rewrite Forall_forall in Hall. specialize (Hall m Hm Hu).
    destruct (Message.status m) as [st|] eqn:E; [|congruence].
    destruct st; try reflexivity;
      (specialize (Hs m _ Hm E); rewrite Hp in Hs; simpl in Hs;
       exfalso; apply Hs; discriminate).
Qed.

Lemma effect_typing env s l t p :
  effect env s l t p ->
  typingJustified (typing (ui s)) (pending s) -> typingJustified t p.
Proof.
  intros [ | | Htext | | l1 k l2 Hp] Hj; try exact Hj.
  - intros Ht. destruct (Hj Ht) as (k & Hk & Ha).
    exists k. split; [apply in_or_app; auto | exact Ha].
  - rewrite Hp in Hj.
    destruct k as [i x th | i x th | i x th | i r]; simpl.
    + intros Ht. destruct (Hj Ht) as (k & Hk & Ha). exists k.
      split; [|exact Ha].
      apply in_app_or in Hk as [Hk | [<- | Hk]];
        [apply in_or_app; auto | discriminate Ha
        | apply in_or_app; right; right; exact Hk].
    + intros _. exists (AtWait700 i x th).
      split; [apply in_elt | reflexivity].
    + intros _. exists (AtWait600 i (replyFor th x)).
      split; [apply in_elt | reflexivity].
    + intros Ht; discriminate Ht.
Qed.

(** X4: in every reachable state the typing indicator is shown only
    while some send in flight has raised it and not yet replied; with
    no send in flight it is hidden. *)
Theorem typing_indicator_needs_a_send_awaiting_reply (s : Sys) :
  reachable s ->
  (typingShown (render s) = true ->
   exists k, In k (pending s) /\ awaitingReply k = true)
  /\ (pending s = [] -> typingShown (render s) = false).
Proof.
  intros Hr.
  assert (Hj : typingJustified (typing (ui s)) (pending s)).
  { induction Hr as [clock | s ev s' _ IH (env & _ & ->)].
    - intros Ht; discriminate Ht.
    - apply (effect_typing env s _ _ _ (exec_effect env ev s)); exact IH. }
  split; [exact Hj|].
  intros Hp. simpl. destruct (typing (ui s)) eqn:E; [|reflexivity].
  destruct (Hj eq_refl) as (k & Hk & _). rewrite Hp in Hk. destruct Hk.
Qed.

(* ----------------------------------------------------------------- *)
(** *** What an event leaves alone *)

Lemma resume_memo env k u :
  timeNow (fst (resume env k u)) = timeNow u
  /\ timeNowDep (fst (resume env k u)) = timeNowDep u.
Proof. destruct k; simpl; auto. Qed.

Lemma resume_nth_frame env n pool u :
  theme (fst (resume_nth env n pool u)) = theme u
  /\ activeThread (fst (resume_nth env n pool u)) = activeThread u
  /\ showSettings (fst (resume_nth env n pool u)) = showSettings u
  /\ timeNow (fst (resume_nth env n pool u)) = timeNow u
  /\ timeNowDep (fst (resume_nth env n pool u)) = timeNowDep u.
Proof.
  destruct (resume_nth_spec env n pool u)
    as [E | (l1 & k & l2 & _ & _ & E)]; rewrite E; simpl; [auto 6|].
  destruct (resume_frame env k u) as (-> & -> & ->).
  destruct (resume_memo env k u) as (-> & ->). auto 6.
Qed.

Lemma doSend_rest env s :
  timeNow (ui (doSend env s)) = timeNow (ui s)
  /\ timeNowDep (ui (doSend env s)) = timeNowDep (ui s)
  /\ (composer (doSend env s) = composer s
      \/ composer (doSend env s) = mkComposer [] 1).
Proof.
  destruct (list_eq_dec N.eq_dec (trim (value (composer s))) []) as [E|E].
  - rewrite doSend_blank by exact E; auto.
  - rewrite doSend_text by exact E; simpl; auto.
Qed.

Lemma onKey_rest e u :
  timeNow (onKey e u) = timeNow u /\ timeNowDep (onKey e u) = timeNowDep u.
Proof. unfold onKey; destruct (_ && _); simpl; auto. Qed.

Lemma handle_frame env ev s :
  timeNow (ui (handle env ev s)) = timeNow (ui s)
  /\ timeNowDep (ui (handle env ev s)) = timeNowDep (ui s)
  /\ (activeThread (ui (handle env ev s)) = activeThread (ui s)
      \/ In (activeThread (ui (handle env ev s))) (map Thread.id demoThreads))
  /\ (composer (handle env ev s) = composer s
      \/ (exists v, composer (handle env ev s) = handleChange v)
      \/ composer (handle env ev s) = mkComposer [] 1).
Proof.
  destruct ev as [v | b e | | | | | n | | | n]; simpl;
    try (solve [auto 8]).
  - repeat split; auto. right; left; exists v; reflexivity.
  - destruct (onKey_rest e (ui (if b then onKeyDown env e s else s)))
      as (-> & ->).
    destruct (onKey_frame e (ui (if b then onKeyDown env e s else s)))
      as (_ & _ & -> & _).
    destruct b; [|auto 7]. unfold onKeyDown.
    destruct (_ && _); [|auto 7].
    destruct (doSend_rest env s) as (-> & -> & [-> | ->]);
      destruct (doSend_frame env s) as (_ & _ & -> & _); auto 7.
  - destruct (doSend_rest env s) as (-> & -> & [-> | ->]);
      destruct (doSend_frame env s) as (_ & _ & -> & _); auto 7.
  - destruct (nth_error demoThreads n) as [t|] eqn:E;
      cbn [handle ui onUi setActiveThread activeThread timeNow timeNowDep
             composer]; [|auto 7].
    repeat split; auto.
    right. exact (in_map Thread.id demoThreads t (nth_error_In _ _ E)).
  - pose proof (resume_nth_frame env n (pending s) (ui s)) as H.
    destruct (resume_nth env n (pending s) (ui s)) as [u pool].
    simpl in *. destruct H as (_ & -> & _ & -> & ->). auto 7.
Qed.

(** X12: a timer segment never changes the theme, the active thread,
    the settings visibility or the composer; it removes at most one send
    from the pool and adds none; and a timer for which no send is
    waiting changes nothing. *)
Theorem timer_touches_only_messages_typing_and_pool
  (env : Env) (n : nat) (s : Sys) :
  let s' := exec env (TimerFires n) s in
  theme (ui s') = theme (ui s)
  /\ activeThread (ui s') = activeThread (ui s)
  /\ showSettings (ui s') = showSettings (ui s)
  /\ composer s' = composer s
  /\ length (pending s') <= length (pending s) <= S (length (pending s'))
  /\ (length (pending s) <= n ->
      messages (ui s') = messages (ui s)
      /\ typing (ui s') = typing (ui s)
      /\ pending s' = pending s).
Proof.
  intros s'.
  destruct (exec_fields env (TimerFires n) s) as (Ht & Hm & Hy & Ha & Hs).
  fold s' in Ht, Hm, Hy, Ha, Hs. rewrite Ht, Hm, Hy, Ha, Hs.
  unfold s'; simpl.
  pose proof (resume_nth_frame env n (pending s) (ui s)) as Hf.
  destruct (resume_nth_spec env n (pending s) (ui s))
    as [E | (l1 & k & l2 & Hp & Hn & E)]; rewrite E in *; simpl in *.
  - repeat split; auto; lia.
  - destruct Hf as (-> & -> & -> & _).
    repeat split; auto.
    + rewrite Hp, !length_app. destruct (snd (resume env k (ui s)));
        simpl; lia.
    + rewrite Hp, !length_app. destruct (snd (resume env k (ui s)));
        simpl; lia.
    + rewrite Hp, length_app in H; simpl in H; lia.
    + rewrite Hp, length_app in H; simpl in H; lia.
    + rewrite Hp, length_app in H; simpl in H; lia.
Qed.

(** X5: only the Clear button removes messages.  Clear empties the
    list; every other event keeps each message in place, up to its
    status, and appends at most one message. *)
Theorem only_clear_removes_messages (env : Env) (ev : Event) (s : Sys) :
  match ev with
  | ClickClear => messages (ui (exec env ev s)) = []
  | _ =>
      exists extra,
        map unmarked (messages (ui (exec env ev s)))
        = map unmarked (messages (ui s)) ++ extra
        /\ length extra <= 1
  end.
Proof.
  assert (Hkeep : forall l : list Message.t,
             exists extra, map unmarked l = map unmarked l ++ extra
                           /\ length extra <= 1).
  { intros l; exists []; rewrite app_nil_r; simpl; auto. }
  assert (Hsnoc : forall (l : list Message.t) m,
             exists extra, map unmarked (l ++ [m]) = map unmarked l ++ extra
                           /\ length extra <= 1).
  { intros l m; exists [unmarked m]; rewrite map_app; simpl; auto. }
  assert (Hsend : exists extra,
             map unmarked (messages (ui (doSend env s)))
             = map unmarked (messages (ui s)) ++ extra
             /\ length extra <= 1).
  { destruct (list_eq_dec N.eq_dec (trim (value (composer s))) []) as [E|E].
    - rewrite doSend_blank by exact E. apply Hkeep.
    - rewrite doSend_text by exact E. simpl. apply Hsnoc. }
  rewrite exec_messages.
  destruct ev as [v | b e | | | | | n | | | n]; simpl;
    try apply Hkeep; try reflexivity.
  - destruct (onKey_frame e (ui (if b then onKeyDown env e s else s)))
      as (-> & _).
    destruct b; [|apply Hkeep].
    unfold onKeyDown; destruct (_ && _); [exact Hsend | apply Hkeep].
  - exact Hsend.
  - destruct (nth_error demoThreads n); apply Hkeep.
  - apply Hsnoc.
  - destruct (resume_nth_spec env n (pending s) (ui s))
      as [E | (l1 & k & l2 & Hp & Hn & E)]; rewrite E; simpl.
    + apply Hkeep.
    + rewrite resume_unmarked. destruct k; simpl; eauto.
Qed.

(** X11: a key press sends nothing unless it is Enter without Shift
    inside the textarea: outside the textarea, with Shift held, or for
    any other key, the message list, the typing flag, the pool, the
    composer, the active thread and the settings visibility stay as
    they are. *)
Theorem key_press_sends_only_on_plain_enter
  (env : Env) (inTextarea : bool) (e : KeyEvent) (s : Sys) :
  inTextarea = false \/ shiftKey e = true \/ key e <> lit "Enter" ->
  let s' := exec env (KeyDown inTextarea e) s in
  messages (ui s') = messages (ui s)
  /\ typing (ui s') = typing (ui s)
  /\ pending s' = pending s
  /\ composer s' = composer s
  /\ activeThread (ui s') = activeThread (ui s)
  /\ showSettings (ui s') = showSettings (ui s).
Proof.
  intros Hcase s'.
  assert (Hk : (if inTextarea then onKeyDown env e s else s) = s).
  { destruct inTextarea; [|reflexivity]. unfold onKeyDown.
    destruct Hcase as [Hc | [Hc | Hc]].
    - discriminate Hc.
    - rewrite Hc, andb_false_r; reflexivity.
    - apply eqb_neq in Hc. rewrite Hc; reflexivity. }
  destruct (exec_fields env (KeyDown inTextarea e) s)
    as (_ & Hm & Hy & Ha & Hs).
  fold s' in Hm, Hy, Ha, Hs. rewrite Hm, Hy, Ha, Hs.
  unfold s'; simpl. rewrite Hk.
  destruct (onKey_frame e (ui s)) as (-> & -> & -> & ->). auto 7.
Qed.

(* ----------------------------------------------------------------- *)
(** *** Sidebar, composer and the memoised time *)

Lemma reachable_activeThread s :
  reachable s -> In (activeThread (ui s)) (map Thread.id demoThreads).
Proof.
  induction 1 as [clock | s ev s' _ IH (env & _ & ->)].
  - left; reflexivity.
  - destruct (exec_fields env ev s) as (_ & _ & _ & -> & _).
    destruct (handle_frame env ev s) as (_ & _ & [-> | H] & _); auto.
Qed.

(** X8: in every reachable state the active thread is one of the demo
    threads, and the sidebar highlights exactly one thread item. *)
Theorem exactly_one_thread_is_highlighted (s : Sys) :
  reachable s ->
  In (activeThread (ui s)) (map Thread.id demoThreads)
  /\ length (filter snd (threadItems (render s))) = 1.
Proof.
  intros Hr. pose proof (reachable_activeThread s Hr) as Hin.
  split; [exact Hin|].
  unfold render; cbn [threadItems].
  simpl in Hin.
  destruct Hin as [<- | [<- | [<- | [<- | []]]]]; reflexivity.
Qed.

(** X9: in every reachable state the textarea's row count is the
    number of lines of its value, capped at 6. *)
Theorem rows_follow_the_value (s : Sys) :
  reachable s ->
  rows (composer s)
  = Nat.min 6 (S (count_occ N.eq_dec (value (composer s)) 10%N))
  /\ 1 <= rows (composer s) <= 6.
Proof.
  intros Hr.
  assert (H : rows (composer s)
              = Nat.min 6 (S (count_occ N.eq_dec (value (composer s)) 10%N))).
  { induction Hr as [clock | s ev s' _ IH (env & _ & ->)];
      [reflexivity|].
    change (composer (exec env ev s)) with (composer (handle env ev s)).
    destruct (handle_frame env ev s) as (_ & _ & _ & [-> | [(v & ->) | ->]]).
    - exact IH.
    - unfold handleChange; cbn [rows value]. rewrite split_length. lia.
    - reflexivity. }
  split; [exact H | lia].
Qed.

(** X13: in every reachable state the memoised [timeNow] was computed
    for the current number of messages, and an event replaces it, by
    the clock of the render that follows, exactly when it changes that
    number. *)
Theorem timeNow_refreshes_when_message_count_changes
  (env : Env) (ev : Event) (s : Sys) :
  reachable s ->
  timeNowDep (ui s) = length (messages (ui s))
  /\ timeNow (ui (exec env ev s))
     = if Nat.eqb (length (messages (ui (exec env ev s))))
                  (length (messages (ui s)))
       then timeNow (ui s) else renderNow env.
Proof.
  intros Hr.
  assert (Hdep : timeNowDep (ui s) = length (messages (ui s))).
  { destruct Hr as [clock | s0 ev0 s' _ (env0 & _ & ->)]; [reflexivity|].
    unfold exec, onUi, rerender; simpl.
    destruct (Nat.eqb _ _) eqn:E; simpl; [|reflexivity].
    apply Nat.eqb_eq in E; auto. }
  split; [exact Hdep|].
  rewrite exec_messages.
  destruct (handle_frame env ev s) as (Ht & Hd & _).
  unfold exec, onUi, rerender; simpl.
  rewrite Hd, Hdep.
  destruct (Nat.eqb _ _); simpl; [exact Ht | reflexivity].
Qed.

(* ----------------------------------------------------------------- *)
(** *** A send in flight runs to completion *)

Lemma resume_nth_at env l1 k l2 u :
  resume_nth env (length l1) (l1 ++ k :: l2) u
  = (fst (resume env k u),
     l1 ++ match snd (resume env k u) with
           | Some k2 => k2 :: l2
           | None => l2
           end).
Proof.
  induction l1 as [|k0 l1 IH]; simpl.
  - destruct (resume env k u) as [u' [k2|]]; reflexivity.
  - rewrite IH; reflexivity.
Qed.

Lemma timer_at env s l1 k l2 :
  pending s = l1 ++ k :: l2 ->
  messages (ui (exec env (TimerFires (length l1)) s))
  = messages (fst (resume env k (ui s)))
  /\ typing (ui (exec env (TimerFires (length l1)) s))
     = typing (fst (resume env k (ui s)))
  /\ theme (ui (exec env (TimerFires (length l1)) s)) = theme (ui s)
  /\ activeThread (ui (exec env (TimerFires (length l1)) s))
     = activeThread (ui s)
  /\ showSettings (ui (exec env (TimerFires (length l1)) s))
     = showSettings (ui s)
  /\ composer (exec env (TimerFires (length l1)) s) = composer s
  /\ pending (exec env (TimerFires (length l1)) s)
     = l1 ++ match snd (resume env k (ui s)) with
             | Some k2 => k2 :: l2
             | None => l2
             end.
Proof.
  intros Hp.
  destruct (exec_fields env (TimerFires (length l1)) s)
    as (-> & -> & -> & -> & ->).
  unfold exec, handle; simpl. rewrite Hp, resume_nth_at; simpl.
  destruct (resume_frame env k (ui s)) as (-> & -> & ->). auto 8.
Qed.

(** The conclusion of [send_in_flight_completes], for a send [k] at
    position [length l1] of the pool of [s]. *)
Lemma complete_600 e s l1 i r l2 :
  pending s = l1 ++ AtWait600 i r :: l2 ->
  pending (fire (length l1) [e] s) = l1 ++ l2
  /\ messages (ui (fire (length l1) [e] s))
     = mark i read (messages (ui s))
         ++ [Message.mk (uuid e) bot r (now e) None None]
  /\ typing (ui (fire (length l1) [e] s)) = false
  /\ theme (ui (fire (length l1) [e] s)) = theme (ui s)
  /\ activeThread (ui (fire (length l1) [e] s)) = activeThread (ui s)
  /\ showSettings (ui (fire (length l1) [e] s)) = showSettings (ui s)
  /\ composer (fire (length l1) [e] s) = composer s.
Proof.
  intros Hp. simpl fire.
  destruct (timer_at e s l1 _ l2 Hp) as (-> & -> & -> & -> & -> & -> & ->).
  simpl. auto 8.
Qed.

Lemma complete_700 e3 e s l1 i x th l2 :
  pending s = l1 ++ AtWait700 i x th :: l2 ->
  pending (fire (length l1) [e3; e] s) = l1 ++ l2
  /\ messages (ui (fire (length l1) [e3; e] s))
     = mark i read (messages (ui s))
         ++ [Message.mk (uuid e) bot (replyFor th x) (now e) None None]
  /\ typing (ui (fire (length l1) [e3; e] s)) = false
  /\ theme (ui (fire (length l1) [e3; e] s)) = theme (ui s)
  /\ activeThread (ui (fire (length l1) [e3; e] s)) = activeThread (ui s)
  /\ showSettings (ui (fire (length l1) [e3; e] s)) = showSettings (ui s)
  /\ composer (fire (length l1) [e3; e] s) = composer s.
Proof.
  intros Hp.
  destruct (timer_at e3 s l1 _ l2 Hp) as (M & _ & T & A & S & C & P).
  change (fire (length l1) [e3; e] s)
    with (fire (length l1) [e] (exec e3 (TimerFires (length l1)) s)).
  destruct (complete_600 e (exec e3 (TimerFires (length l1)) s) l1 i
              (replyFor th x) l2 P)
    as (-> & -> & -> & -> & -> & -> & ->).
  rewrite M, T, A, S, C. auto 8.
Qed.

Lemma complete_300 e2 e3 e s l1 i x th l2 :
  pending s = l1 ++ AtWait300 i x th :: l2 ->
  pending (fire (length l1) [e2; e3; e] s) = l1 ++ l2
  /\ messages (ui (fire (length l1) [e2; e3; e] s))
     = mark i read (mark i delivered (messages (ui s)))
         ++ [Message.mk (uuid e) bot (replyFor th x) (now e) None None]
  /\ typing (ui (fire (length l1) [e2; e3; e] s)) = false
  /\ theme (ui (fire (length l1) [e2; e3; e] s)) = theme (ui s)
  /\ activeThread (ui (fire (length l1) [e2; e3; e] s)) = activeThread (ui s)
  /\ showSettings (ui (fire (length l1) [e2; e3; e] s)) = showSettings (ui s)
  /\ composer (fire (length l1) [e2; e3; e] s) = composer s.
Proof.
  intros Hp.
  destruct (timer_at e2 s l1 _ l2 Hp) as (M & _ & T & A & S & C & P).
  change (fire (length l1) [e2; e3; e] s)
    with (fire (length l1) [e3; e] (exec e2 (TimerFires (length l1)) s)).
  destruct (complete_700 e3 e (exec e2 (TimerFires (length l1)) s) l1 i x th
              l2 P)
    as (-> & -> & -> & -> & -> & -> & ->).
  rewrite M, T, A, S, C. auto 8.
Qed.

Lemma complete_400 e1 e2 e3 e s l1 i x th l2 :
  pending s = l1 ++ AtWait400 i x th :: l2 ->
  pending (fire (length l1) [e1; e2; e3; e] s) = l1 ++ l2
  /\ messages (ui (fire (length l1) [e1; e2; e3; e] s))
     = mark i read (mark i delivered (mark i sent (messages (ui s))))
         ++ [Message.mk (uuid e) bot (replyFor th x) (now e) None None]
  /\ typing (ui (fire (length l1) [e1; e2; e3; e] s)) = false
  /\ theme (ui (fire (length l1) [e1; e2; e3; e] s)) = theme (ui s)
  /\ activeThread (ui (fire (length l1) [e1; e2; e3; e] s))
     = activeThread (ui s)
  /\ showSettings (ui (fire (length l1) [e1; e2; e3; e] s))
     = showSettings (ui s)
  /\ composer (fire (length l1) [e1; e2; e3; e] s) = composer s.
Proof.
  intros Hp.
  destruct (timer_at e1 s l1 _ l2 Hp) as (M & _ & T & A & S & C & P).
  change (fire (length l1) [e1; e2; e3; e] s)
    with (fire (length l1) [e2; e3; e] (exec e1 (TimerFires (length l1)) s)).
  destruct (complete_300 e2 e3 e (exec e1 (TimerFires (length l1)) s) l1 i x
              th l2 P)
    as (-> & -> & -> & -> & -> & -> & ->).
  rewrite M, T, A, S, C. auto 8.
Qed.

(** X14: a send in flight, wherever it stands in the pool and at
    whichever of its four waits, completes once its remaining timers
    have fired: it leaves the pool, its remaining status rewrites are
    applied, exactly one bot message with its reply is appended, and the
    typing indicator is lowered; theme, active thread, settings
    visibility and composer are untouched. *)
Theorem send_in_flight_completes
  (s : Sys) (l1 : list Suspended) (k : Suspended) (l2 : list Suspended)
  (front : list Env) (e : Env) :
  pending s = l1 ++ k :: l2 ->
  S (length front) = stepsLeft k ->
  let s' := fire (length l1) (front ++ [e]) s in
  pending s' = l1 ++ l2
  /\ messages (ui s')
     = finish k (messages (ui s))
         ++ [Message.mk (uuid e) bot (finalReply k) (now e) None None]
  /\ typing (ui s') = false
  /\ theme (ui s') = theme (ui s)
  /\ activeThread (ui s') = activeThread (ui s)
  /\ showSettings (ui s') = showSettings (ui s)
  /\ composer s' = composer s.
Proof.
  intros Hp Hlen s'. unfold s'.
  destruct k as [i x th | i x th | i x th | i r]; simpl in Hlen.
  - destruct front as [|e1 [|e2 [|e3 [|? ?]]]]; try discriminate Hlen.
    apply complete_400; exact Hp.
  - destruct front as [|e2 [|e3 [|? ?]]]; try discriminate Hlen.
    apply complete_300; exact Hp.
  - destruct front as [|e3 [|? ?]]; try discriminate Hlen.
    apply complete_700; exact Hp.
  - destruct front as [|? ?]; try discriminate Hlen.
    apply complete_600; exact Hp.
Qed.

(** X6: when the list is cleared right after a send, the send's
    timers still run: the user message stays gone, and the bot reply is
    appended to the empty list, so that the reply is the only message
    and the empty state, shown after the clear, is hidden again. *)
Theorem reply_arrives_after_clear
  (e0 ec e1 e2 e3 e4 : Env) (s : Sys) :
  trim (value (composer s)) <> [] ->
  let cleared := exec ec ClickClear (exec e0 ClickSend s) in
  let s' := fire (length (pending s)) [e1; e2; e3; e4] cleared in
  emptyStateShown (render cleared) = true
  /\ messages (ui s') = [replyMessage e4 s]
  /\ emptyStateShown (render s') = false
  /\ typingShown (render s') = false
  /\ pending s' = pending s.
Proof.
  intros Htext cleared s'.
  assert (Hp : pending cleared
               = pending s
                   ++ [AtWait400 (uuid e0) (trim (value (composer s)))
                         (theme (ui s))]).
  { unfold cleared, exec, handle; simpl.
    rewrite doSend_text by exact Htext. reflexivity. }
  assert (Hm : messages (ui cleared) = [])
    by (unfold cleared; rewrite exec_messages; reflexivity).
  destruct (complete_400 e1 e2 e3 e4 cleared _ _ _ _ [] Hp)
    as (P & M & T & _).
  fold s' in P, M, T. rewrite app_nil_r in P.
  assert (M' : messages (ui s') = [replyMessage e4 s])
    by (rewrite M, Hm; reflexivity).
  split; [|split; [exact M' | split; [|split; [exact T | exact P]]]].
  - change (Nat.eqb (length (messages (ui cleared))) 0 = true).
    rewrite Hm; reflexivity.
  - change (Nat.eqb (length (messages (ui s'))) 0 = false).
    rewrite M'; reflexivity.
Qed.

(** X7: the reply to a send is computed from the theme captured when
    the message was sent.  When the theme is toggled while the send is
    in flight, the bot reply is still the one for the old theme; for the
    theme command it names a theme that is no longer the current one. *)
Theorem reply_uses_theme_at_send_time
  (e0 et e1 e2 e3 e4 : Env) (s : Sys) :
  trim (value (composer s)) <> [] ->
  let text := trim (value (composer s)) in
  let toggled := exec et ClickToggleTheme (exec e0 ClickSend s) in
  let s' := fire (length (pending s)) [e1; e2; e3; e4] toggled in
  theme (ui s') = toggle (theme (ui s))
  /\ (exists l, messages (ui s') = l ++ [replyMessage e4 s])
  /\ (startsWith text (lit "/") = true ->
      toLowerCase (trim (slice 1 text)) = lit "theme" ->
      Message.text (replyMessage e4 s) = replyTheme (theme (ui s))
      /\ Message.text (replyMessage e4 s) <> replyTheme (theme (ui s'))).
Proof.
  intros Htext text toggled s'.
  assert (Hp : pending toggled
               = pending s ++ [AtWait400 (uuid e0) text (theme (ui s))]).
  { unfold toggled, exec, handle; simpl.
    rewrite doSend_text by exact Htext. reflexivity. }
  assert (Ht : theme (ui toggled) = toggle (theme (ui s))).
  { unfold toggled.
    destruct (exec_fields et ClickToggleTheme (exec e0 ClickSend s))
      as (-> & _).
    change (toggle (theme (ui (exec e0 ClickSend s)))
            = toggle (theme (ui s))).
    destruct (exec_fields e0 ClickSend s) as (-> & _).
    change (toggle (theme (ui (doSend e0 s))) = toggle (theme (ui s))).
    destruct (doSend_frame e0 s) as (-> & _). reflexivity. }
  destruct (complete_400 e1 e2 e3 e4 toggled _ _ _ _ [] Hp)
    as (_ & M & _ & T & _).
  fold s' in M, T.
  assert (Hth : theme (ui s') = toggle (theme (ui s))) by congruence.
  split; [exact Hth|]. split; [eexists; exact M|].
  intros Hs Hc. unfold replyMessage; cbn [Message.text]. fold text.
  rewrite replyFor_table, Hs. cbv zeta. rewrite Hc, Hth.
  split; [reflexivity|].
  destruct (theme (ui s)); simpl; discriminate.
Qed.

End Coverage.

(* ----------------------------------------------------------------- *)
(** *** The further properties at concrete inputs *)

Lemma sample_inFlight_reachable :
  reachable (B := asciiBuiltins) Sample.inFlight.
Proof. apply demo_sentOnce_reachable. Defined.

Lemma sample_typingNow_reachable :
  reachable (B := asciiBuiltins) Sample.typingNow.
Proof.
  apply reach_step with (s := Sample.afterSent) (ev := TimerFires 0).
  - apply reach_step with (s := Sample.inFlight) (ev := TimerFires 0).
    + apply sample_inFlight_reachable.
    + exists (Demo.env "id-2" "10:05"). split; [solve_fresh | reflexivity].
  - exists (Demo.env "id-3" "10:05"). split; [solve_fresh | reflexivity].
Defined.

Lemma sample_hello_in_flight :
  In (Sample.hello sending) (messages (ui Sample.inFlight)).
Proof. right; right; right; left; reflexivity. Defined.

Lemma bubble_tick_exactly_on_user_messages_witness :
  reachable (B := asciiBuiltins) Sample.inFlight
  /\ In (Sample.hello sending) (messages (ui Sample.inFlight))
  /\ tick (Bubble (Sample.hello sending)) = Some Loader2.
Proof.
  split; [apply sample_inFlight_reachable|].
  split; [apply sample_hello_in_flight|].
  destruct (bubble_tick_exactly_on_user_messages (B := asciiBuiltins)
              Sample.inFlight sample_inFlight_reachable
              (Sample.hello sending) sample_hello_in_flight)
    as (H & _).
  destruct (H eq_refl) as (st & Hst & Ht & _).
  simpl in Hst. injection Hst as <-. exact Ht.
Defined.

Lemma user_message_text_is_trimmed_witness :
  reachable (B := asciiBuiltins) Sample.inFlight
  /\ In (Sample.hello sending) (messages (ui Sample.inFlight))
  /\ Message.sender (Sample.hello sending) = user
  /\ trim (lit "hello") = lit "hello".
Proof.
  split; [apply sample_inFlight_reachable|].
  split; [apply sample_hello_in_flight|].
  split; [reflexivity|].
  destruct (user_message_text_is_trimmed (B := asciiBuiltins)
              Sample.inFlight sample_inFlight_reachable
              (Sample.hello sending) sample_hello_in_flight eq_refl)
    as (_ & H).
  exact H.
Defined.

Lemma message_ids_are_distinct_witness :
  reachable (B := asciiBuiltins) Sample.inFlight
  /\ NoDup [lit "m1"; lit "m2"; lit "m3"; lit "id-1"].
Proof.
  split; [apply sample_inFlight_reachable|].
  destruct (message_ids_are_distinct (B := asciiBuiltins)
              Sample.inFlight sample_inFlight_reachable) as (H & _).
  exact H.
Defined.

Lemma unread_messages_belong_to_sends_in_flight_witness :
  reachable (B := asciiBuiltins) Sample.inFlight
  /\ In (Sample.hello sending) (messages (ui Sample.inFlight))
  /\ Message.status (Sample.hello sending) = Some sending
  /\ sending <> read
  /\ exists k, In k (pending Sample.inFlight)
               /\ susp_id k = lit "id-1" /\ written k = sending.
Proof.
  split; [apply sample_inFlight_reachable|].
  split; [apply sample_hello_in_flight|].
  split; [reflexivity|].
  assert (Hne : sending <> read) by discriminate.
  split; [exact Hne|].
  destruct (unread_messages_belong_to_sends_in_flight (B := asciiBuiltins)
              Sample.inFlight sample_inFlight_reachable) as (H & _).
  exact (H (Sample.hello sending) sending sample_hello_in_flight eq_refl Hne).
Defined.

Lemma typing_indicator_needs_a_send_awaiting_reply_witness :
  reachable (B := asciiBuiltins) Sample.typingNow
  /\ typingShown (render Sample.typingNow) = true
  /\ exists k, In k (pending Sample.typingNow) /\ awaitingReply k = true.
Proof.
  split; [apply sample_typingNow_reachable|].
  split; [reflexivity|].
  destruct (typing_indicator_needs_a_send_awaiting_reply (B := asciiBuiltins)
              Sample.typingNow sample_typingNow_reachable) as (H & _).
  exact (H eq_refl).
Defined.

Lemma key_press_sends_only_on_plain_enter_witness :
  shiftKey Sample.shiftEnter = true
  /\ messages
       (ui (exec (B := asciiBuiltins) (Demo.env "id-1" "10:05")
              (KeyDown true Sample.shiftEnter) (Demo.typed (lit "hello"))))
     = introMessages.
Proof.
  split; [reflexivity|].
  destruct (key_press_sends_only_on_plain_enter (B := asciiBuiltins)
              (Demo.env "id-1" "10:05") true Sample.shiftEnter
              (Demo.typed (lit "hello")) (or_intror (or_introl eq_refl)))
    as (H & _).
  exact H.
Defined.

Lemma exactly_one_thread_is_highlighted_witness :
  reachable (B := asciiBuiltins) Sample.inFlight
  /\ map snd (threadItems (render Sample.inFlight))
     = [true; false; false; false]
  /\ length (filter snd (threadItems (render Sample.inFlight))) = 1.
Proof.
  split; [apply sample_inFlight_reachable|].
  split; [reflexivity|].
  destruct (exactly_one_thread_is_highlighted (B := asciiBuiltins)
              Sample.inFlight sample_inFlight_reachable) as (_ & H).
  exact H.
Defined.

Lemma rows_follow_the_value_witness :
  reachable (B := asciiBuiltins) (Demo.typed (lit "a" ++ [10%N] ++ lit "b"))
  /\ rows (composer (Demo.typed (lit "a" ++ [10%N] ++ lit "b"))) = 2.
Proof.
  split; [apply demo_typed_reachable|].
  destruct (rows_follow_the_value (B := asciiBuiltins)
              (Demo.typed (lit "a" ++ [10%N] ++ lit "b"))
              (demo_typed_reachable _)) as (H & _).
  exact H.
Defined.

Lemma timeNow_refreshes_when_message_count_changes_witness :
  reachable (B := asciiBuiltins) (Demo.typed (lit "hello"))
  /\ timeNow (ui (Demo.typed (lit "hello"))) = lit "10:00"
  /\ timeNow (ui Sample.inFlight) = lit "10:05"
  /\ timeNow (ui Sample.afterSent) = lit "10:05".
Proof.
  split; [apply demo_typed_reachable|].
  split; [reflexivity|].
  destruct (timeNow_refreshes_when_message_count_changes
              (B := asciiBuiltins) (Demo.env "id-1" "10:05") ClickSend
              (Demo.typed (lit "hello")) (demo_typed_reachable _))
    as (_ & H1).
  destruct (timeNow_refreshes_when_message_count_changes
              (B := asciiBuiltins) (Demo.env "id-2" "10:05") (TimerFires 0)
              Sample.inFlight sample_inFlight_reachable)
    as (_ & H2).
  split; [exact H1 | exact H2].
Defined.

Lemma send_in_flight_completes_witness :
  pending Sample.inFlight = [] ++ Sample.waiting :: []
  /\ S (length Sample.timers) = stepsLeft Sample.waiting
  /\ pending
       (fire (B := asciiBuiltins) 0
          (Sample.timers ++ [Demo.env "id-5" "10:06"]) Sample.inFlight)
     = []
  /\ map Message.status
       (messages
          (ui (fire (B := asciiBuiltins) 0
                 (Sample.timers ++ [Demo.env "id-5" "10:06"])
                 Sample.inFlight)))
     = [None; Some read; None; Some read; None].
Proof.
  split; [reflexivity | split; [reflexivity|]].
  destruct (send_in_flight_completes (B := asciiBuiltins) Sample.inFlight
              [] Sample.waiting [] Sample.timers (Demo.env "id-5" "10:06")
              eq_refl eq_refl) as (P & M & _).
  split; [exact P|].
  simpl length in M. rewrite M. reflexivity.
Defined.

Lemma reply_arrives_after_clear_witness :
  trim (value (composer (Demo.typed (lit "hello")))) <> []
  /\ messages
       (ui (fire (B := asciiBuiltins) 0
              (Sample.timers ++ [Demo.env "id-5" "10:06"])
              (exec (B := asciiBuiltins) (Demo.env "id-9" "10:05") ClickClear
                 Sample.inFlight)))
     = [Message.mk (lit "id-5") bot replyDefault (lit "10:06") None None].
Proof.
  assert (Htext : trim (value (composer (Demo.typed (lit "hello")))) <> [])
    by (vm_compute; discriminate).
  split; [exact Htext|].
  destruct (reply_arrives_after_clear (B := asciiBuiltins)
              (Demo.env "id-1" "10:05") (Demo.env "id-9" "10:05")
              (Demo.env "id-2" "10:05") (Demo.env "id-3" "10:05")
              (Demo.env "id-4" "10:05") (Demo.env "id-5" "10:06")
              (Demo.typed (lit "hello")) Htext) as (_ & H & _).
  exact H.
Defined.

Lemma reply_uses_theme_at_send_time_witness :
  trim (value (composer (Demo.typed (lit "/theme")))) <> []
  /\ theme
       (ui (fire (B := asciiBuiltins) 0
              (Sample.timers ++ [Demo.env "id-5" "10:06"])
              (exec (B := asciiBuiltins) (Demo.env "id-9" "10:05")
                 ClickToggleTheme (Demo.sentOnce (lit "/theme")))))
     = light
  /\ Message.text (replyMessage (B := asciiBuiltins) (Demo.env "id-5" "10:06")
                     (Demo.typed (lit "/theme")))
     = replyTheme dark.
Proof.
  assert (Htext : trim (value (composer (Demo.typed (lit "/theme")))) <> [])
    by (vm_compute; discriminate).
  split; [exact Htext|].
  destruct (reply_uses_theme_at_send_time (B := asciiBuiltins)
              (Demo.env "id-1" "10:05") (Demo.env "id-9" "10:05")
              (Demo.env "id-2" "10:05") (Demo.env "id-3" "10:05")
              (Demo.env "id-4" "10:05") (Demo.env "id-5" "10:06")
              (Demo.typed (lit "/theme")) Htext) as (Ht & _ & Hr).
  split; [exact Ht|].
  destruct (Hr eq_refl eq_refl) as (H & _). exact H.
Defined.
